(** * Service-control client cache: decision layer of the ESPv2 filter

    A shallow embedding of [src/envoy/http/service_control/client_cache.cc]
    and the properties of its Check / Quota decision logic.

    The C++ class [ClientCache] mutates its own members (the request
    settings and the statistics counters) and reports results through
    completion callbacks.  Both are modelled by one state monad: the state
    holds the object ([this]) and the chronological list of externally
    visible events (callback invocations, log lines, and the assignments of
    the [api_key_state] field of the response info under construction). *)

From stdpp Require Import base decidable countable strings list gmap.
From Stdlib Require Import NArith Lia.

Local Open Scope string_scope.
Local Open Scope list_scope.
Local Open Scope N_scope.

(** ** Status codes and statuses (protobuf / abseil) *)

Inductive StatusCode : Type :=
| kOk
| kCancelled
| kUnknown
| kInvalidArgument
| kDeadlineExceeded
| kNotFound
| kAlreadyExists
| kPermissionDenied
| kResourceExhausted
| kFailedPrecondition
| kAborted
| kOutOfRange
| kUnimplemented
| kInternal
| kUnavailable
| kDataLoss
| kUnauthenticated.

#[global] Instance StatusCode_eq_dec : EqDecision StatusCode.
Proof. solve_decision. Defined.

(** The numeric value of a status code. *)
Definition code_value (c : StatusCode) : nat :=
  match c with
  | kOk => 0 | kCancelled => 1 | kUnknown => 2 | kInvalidArgument => 3
  | kDeadlineExceeded => 4 | kNotFound => 5 | kAlreadyExists => 6
  | kPermissionDenied => 7 | kResourceExhausted => 8
  | kFailedPrecondition => 9 | kAborted => 10 | kOutOfRange => 11
  | kUnimplemented => 12 | kInternal => 13 | kUnavailable => 14
  | kDataLoss => 15 | kUnauthenticated => 16
  end%nat.

Definition code_of_value (n : nat) : option StatusCode :=
  match n with
  | 0 => Some kOk | 1 => Some kCancelled | 2 => Some kUnknown
  | 3 => Some kInvalidArgument | 4 => Some kDeadlineExceeded
  | 5 => Some kNotFound | 6 => Some kAlreadyExists
  | 7 => Some kPermissionDenied | 8 => Some kResourceExhausted
  | 9 => Some kFailedPrecondition | 10 => Some kAborted
  | 11 => Some kOutOfRange | 12 => Some kUnimplemented
  | 13 => Some kInternal | 14 => Some kUnavailable | 15 => Some kDataLoss
  | 16 => Some kUnauthenticated
  | _ => None
  end%nat.

Lemma code_of_value_code_value (c : StatusCode) :
  code_of_value (code_value c) = Some c.
Proof. by destruct c. Qed.

#[global] Instance StatusCode_countable : Countable StatusCode :=
  inj_countable code_value code_of_value code_of_value_code_value.

(** [absl::StatusCodeToString]. *)
Definition StatusCodeToString (c : StatusCode) : string :=
  match c with
  | kOk => "OK"
  | kCancelled => "CANCELLED"
  | kUnknown => "UNKNOWN"
  | kInvalidArgument => "INVALID_ARGUMENT"
  | kDeadlineExceeded => "DEADLINE_EXCEEDED"
  | kNotFound => "NOT_FOUND"
  | kAlreadyExists => "ALREADY_EXISTS"
  | kPermissionDenied => "PERMISSION_DENIED"
  | kResourceExhausted => "RESOURCE_EXHAUSTED"
  | kFailedPrecondition => "FAILED_PRECONDITION"
  | kAborted => "ABORTED"
  | kOutOfRange => "OUT_OF_RANGE"
  | kUnimplemented => "UNIMPLEMENTED"
  | kInternal => "INTERNAL"
  | kUnavailable => "UNAVAILABLE"
  | kDataLoss => "DATA_LOSS"
  | kUnauthenticated => "UNAUTHENTICATED"
  end.

(** A [Status] is a code and an error message. *)
Record Status : Type := MkStatus { code : StatusCode; message : string }.

#[global] Instance Status_eq_dec : EqDecision Status.
Proof. solve_decision. Defined.

(** The two-argument constructor [Status(code, message)]: an OK status
    never keeps a message. *)
Definition mkStatus (c : StatusCode) (msg : string) : Status :=
  if decide (c = kOk) then MkStatus kOk "" else MkStatus c msg.

Definition OkStatus : Status := MkStatus kOk "".

(** [status.ok()] *)
Definition ok (s : Status) : bool := bool_decide (code s = kOk).
Arguments ok : simpl never.

(** ** Response information handed to the filter *)

(** Modelled from the spec: the enumeration [ScResponseErrorType] is
    declared in a header that is not part of the sources at hand; its
    members are the error types the source names in
    [collectScResponseErrorStats], [handleCheckResponse] and
    [failCallStatusToScResponseError], which are also the service-level
    error subtypes of the specification's taxonomy. *)
Inductive ScResponseErrorType : Type :=
| ERROR_TYPE_UNSPECIFIED
| API_KEY_INVALID
| SERVICE_NOT_ACTIVATED
| CONSUMER_BLOCKED
| CONSUMER_ERROR
| CONSUMER_QUOTA.

#[global] Instance ScResponseErrorType_eq_dec : EqDecision ScResponseErrorType.
Proof. solve_decision. Defined.

(** Modelled from the spec: [ApiKeyState] is the four-valued enumeration
    of the data model. *)
Inductive ApiKeyState : Type := VERIFIED | NOT_CHECKED | INVALID | NOT_ENABLED.

#[global] Instance ApiKeyState_eq_dec : EqDecision ApiKeyState.
Proof. solve_decision. Defined.

(** [ScResponseError]: the three fields that
    [failCallStatusToScResponseError] initialises, in order. *)
Record ScResponseError : Type := MkScResponseError {
  name : string;
  is_network_error : bool;
  type : ScResponseErrorType
}.

#[global] Instance ScResponseError_eq_dec : EqDecision ScResponseError.
Proof. solve_decision. Defined.

(** Modelled from the spec: the response infos are
    [{errorType, apiKeyState, ...domain fields}].  The domain fields are
    never read or written by the client cache; they are kept as one field
    of an arbitrary type [D]. *)
Record CheckResponseInfo (D : Type) : Type := MkCheckResponseInfo {
  error : ScResponseError;
  api_key_state : ApiKeyState;
  check_domain : D
}.
Arguments MkCheckResponseInfo {D}.
Arguments error {D}.
Arguments api_key_state {D}.
Arguments check_domain {D}.

Record QuotaResponseInfo (D : Type) : Type := MkQuotaResponseInfo {
  quota_error : ScResponseError;
  quota_domain : D
}.
Arguments MkQuotaResponseInfo {D}.
Arguments quota_error {D}.
Arguments quota_domain {D}.

(** [response_info.error = e] *)
Definition set_error {D} (e : ScResponseError) (info : CheckResponseInfo D)
  : CheckResponseInfo D :=
  MkCheckResponseInfo e (api_key_state info) (check_domain info).

(** [response_info.api_key_state = s] *)
Definition set_api_key_state {D} (s : ApiKeyState) (info : CheckResponseInfo D)
  : CheckResponseInfo D :=
  MkCheckResponseInfo (error info) s (check_domain info).

Definition set_quota_error {D} (e : ScResponseError) (info : QuotaResponseInfo D)
  : QuotaResponseInfo D :=
  MkQuotaResponseInfo e (quota_domain info).

(** Convert http error status into the ScResponseError. *)
Definition failCallStatusToScResponseError (status : Status) : ScResponseError :=
  {| name := StatusCodeToString (code status);
     is_network_error := true;
     type := ERROR_TYPE_UNSPECIFIED |}.

(** ** Filter configuration (protobuf messages) *)

(** Wrapper messages [google.protobuf.UInt32Value] and [BoolValue]. *)
Record UInt32Value : Type := { u32_value : N }.
Record BoolValue : Type := { bool_value : bool }.

(** The [sc_calling_config] message: every field is an optional wrapper.
    The generated accessors are [has_x()], the presence test, and [x()],
    which yields the default instance when the field is absent. *)
Record ServiceControlCallingConfig : Type := {
  opt_network_fail_open : option BoolValue;
  opt_check_timeout_ms : option UInt32Value;
  opt_quota_timeout_ms : option UInt32Value;
  opt_report_timeout_ms : option UInt32Value;
  opt_check_retries : option UInt32Value;
  opt_quota_retries : option UInt32Value;
  opt_report_retries : option UInt32Value
}.

Definition has {A} (field : option A) : bool :=
  match field with Some _ => true | None => false end.

Definition has_network_fail_open c := has (opt_network_fail_open c).
Definition has_check_timeout_ms c := has (opt_check_timeout_ms c).
Definition has_quota_timeout_ms c := has (opt_quota_timeout_ms c).
Definition has_report_timeout_ms c := has (opt_report_timeout_ms c).
Definition has_check_retries c := has (opt_check_retries c).
Definition has_quota_retries c := has (opt_quota_retries c).
Definition has_report_retries c := has (opt_report_retries c).

Definition network_fail_open c : BoolValue :=
  default {| bool_value := false |} (opt_network_fail_open c).
Definition check_timeout_ms c : UInt32Value :=
  default {| u32_value := 0 |} (opt_check_timeout_ms c).
Definition quota_timeout_ms c : UInt32Value :=
  default {| u32_value := 0 |} (opt_quota_timeout_ms c).
Definition report_timeout_ms c : UInt32Value :=
  default {| u32_value := 0 |} (opt_report_timeout_ms c).
Definition check_retries c : UInt32Value :=
  default {| u32_value := 0 |} (opt_check_retries c).
Definition quota_retries c : UInt32Value :=
  default {| u32_value := 0 |} (opt_quota_retries c).
Definition report_retries c : UInt32Value :=
  default {| u32_value := 0 |} (opt_report_retries c).

Definition empty_calling_config : ServiceControlCallingConfig :=
  {| opt_network_fail_open := None;
     opt_check_timeout_ms := None; opt_quota_timeout_ms := None;
     opt_report_timeout_ms := None;
     opt_check_retries := None; opt_quota_retries := None;
     opt_report_retries := None |}.

Record FilterConfig : Type := {
  opt_sc_calling_config : option ServiceControlCallingConfig;
  service_control_uri : string
}.

Definition has_sc_calling_config (fc : FilterConfig) : bool :=
  has (opt_sc_calling_config fc).
Definition sc_calling_config (fc : FilterConfig) : ServiceControlCallingConfig :=
  default empty_calling_config (opt_sc_calling_config fc).

(** The per-service configuration. *)
Record Service : Type := {
  service_name : string;
  service_config_id : string
}.

(** ** Default settings *)

(** The default connection timeout for check requests. *)
Definition kCheckDefaultTimeoutInMs : N := 1000.
(** The default connection timeout for allocate quota requests. *)
Definition kAllocateQuotaDefaultTimeoutInMs : N := 1000.
(** The default connection timeout for report requests. *)
Definition kReportDefaultTimeoutInMs : N := 2000.

(** The default number of retries for check calls. *)
Definition kCheckDefaultNumberOfRetries : N := 3.
(** The default number of retries for allocate quota calls. *)
Definition kAllocateQuotaDefaultNumberOfRetries : N := 1.
(** The default number of retries for report calls. *)
Definition kReportDefaultNumberOfRetries : N := 5.

(** The default value for network_fail_open flag. *)
Definition kDefaultNetworkFailOpen : bool := true.

(** ** Statistics *)

(** The counters of [filter_stats_.filter_] that the client cache
    increments.  A counter is only ever incremented, never read. *)
Record FilterStats : Type := MkFilterStats {
  allowed_control_plane_fault_ : N;
  denied_control_plane_fault_ : N;
  denied_producer_error_ : N;
  denied_consumer_blocked_ : N;
  denied_consumer_error_ : N;
  denied_consumer_quota_ : N
}.

#[global] Instance FilterStats_eq_dec : EqDecision FilterStats.
Proof. solve_decision. Defined.

Inductive FilterCounter : Type :=
| allowed_control_plane_fault
| denied_control_plane_fault
| denied_producer_error
| denied_consumer_blocked
| denied_consumer_error
| denied_consumer_quota.

#[global] Instance FilterCounter_eq_dec : EqDecision FilterCounter.
Proof. solve_decision. Defined.

Definition counter (c : FilterCounter) (fs : FilterStats) : N :=
  match c with
  | allowed_control_plane_fault => allowed_control_plane_fault_ fs
  | denied_control_plane_fault => denied_control_plane_fault_ fs
  | denied_producer_error => denied_producer_error_ fs
  | denied_consumer_blocked => denied_consumer_blocked_ fs
  | denied_consumer_error => denied_consumer_error_ fs
  | denied_consumer_quota => denied_consumer_quota_ fs
  end.

(** [counter.inc()] on one of the filter counters. *)
Definition inc_counter (c : FilterCounter) (fs : FilterStats) : FilterStats :=
  match c with
  | allowed_control_plane_fault =>
      MkFilterStats (N.succ (allowed_control_plane_fault_ fs))
        (denied_control_plane_fault_ fs) (denied_producer_error_ fs)
        (denied_consumer_blocked_ fs) (denied_consumer_error_ fs)
        (denied_consumer_quota_ fs)
  | denied_control_plane_fault =>
      MkFilterStats (allowed_control_plane_fault_ fs)
        (N.succ (denied_control_plane_fault_ fs)) (denied_producer_error_ fs)
        (denied_consumer_blocked_ fs) (denied_consumer_error_ fs)
        (denied_consumer_quota_ fs)
  | denied_producer_error =>
      MkFilterStats (allowed_control_plane_fault_ fs)
        (denied_control_plane_fault_ fs) (N.succ (denied_producer_error_ fs))
        (denied_consumer_blocked_ fs) (denied_consumer_error_ fs)
        (denied_consumer_quota_ fs)
  | denied_consumer_blocked =>
      MkFilterStats (allowed_control_plane_fault_ fs)
        (denied_control_plane_fault_ fs) (denied_producer_error_ fs)
        (N.succ (denied_consumer_blocked_ fs)) (denied_consumer_error_ fs)
        (denied_consumer_quota_ fs)
  | denied_consumer_error =>
      MkFilterStats (allowed_control_plane_fault_ fs)
        (denied_control_plane_fault_ fs) (denied_producer_error_ fs)
        (denied_consumer_blocked_ fs) (N.succ (denied_consumer_error_ fs))
        (denied_consumer_quota_ fs)
  | denied_consumer_quota =>
      MkFilterStats (allowed_control_plane_fault_ fs)
        (denied_control_plane_fault_ fs) (denied_producer_error_ fs)
        (denied_consumer_blocked_ fs) (denied_consumer_error_ fs)
        (N.succ (denied_consumer_quota_ fs))
  end.

(** The three call types, each with its own group of call-status
    counters ([filter_stats_.check_], [.allocate_quota_], [.report_]). *)
Inductive CallType : Type := CheckCall | AllocateQuotaCall | ReportCall.

#[global] Instance CallType_eq_dec : EqDecision CallType.
Proof. solve_decision. Defined.

(** The name of the call in the log lines. *)
Definition call_name (t : CallType) : string :=
  match t with
  | CheckCall => "check"
  | AllocateQuotaCall => "allocateQuota"
  | ReportCall => "report"
  end.

Record ServiceControlFilterStats : Type := MkServiceControlFilterStats {
  filter_ : FilterStats;
  check_ : gmap StatusCode N;
  allocate_quota_ : gmap StatusCode N;
  report_ : gmap StatusCode N
}.

Definition call_stats (t : CallType) (st : ServiceControlFilterStats)
  : gmap StatusCode N :=
  match t with
  | CheckCall => check_ st
  | AllocateQuotaCall => allocate_quota_ st
  | ReportCall => report_ st
  end.

Definition set_call_stats (t : CallType) (m : gmap StatusCode N)
    (st : ServiceControlFilterStats) : ServiceControlFilterStats :=
  match t with
  | CheckCall =>
      MkServiceControlFilterStats (filter_ st) m (allocate_quota_ st) (report_ st)
  | AllocateQuotaCall =>
      MkServiceControlFilterStats (filter_ st) (check_ st) m (report_ st)
  | ReportCall =>
      MkServiceControlFilterStats (filter_ st) (check_ st) (allocate_quota_ st) m
  end.

Definition set_filter (fs : FilterStats) (st : ServiceControlFilterStats)
  : ServiceControlFilterStats :=
  MkServiceControlFilterStats fs (check_ st) (allocate_quota_ st) (report_ st).

(** The value of the call-status counter of call type [t] for code [c];
    a counter that was never incremented reads zero. *)
Definition call_counter (t : CallType) (c : StatusCode)
    (st : ServiceControlFilterStats) : N :=
  default 0 (call_stats t st !! c).

(** Modelled from the spec: [ServiceControlFilterStats::collectCallStatus]
    is defined outside the sources at hand.  The stats sink is keyed by
    call type and resulting status code, and one completed call increments
    the counter of its status code in the group of its call type. *)
Definition ServiceControlFilterStats_collectCallStatus
    (group : gmap StatusCode N) (c : StatusCode) : gmap StatusCode N :=
  <[c := N.succ (default 0 (group !! c))]> group.

(** ** The [ClientCache] object *)

(** The data members of [ClientCache] that the member functions below read
    or write.  The aggregation client, the http call factories and the time
    source are external collaborators and hold no state of this class. *)
Record ClientCache : Type := MkClientCache {
  config_ : Service;
  filter_stats_ : ServiceControlFilterStats;
  network_fail_open_ : bool;
  check_timeout_ms_ : N;
  quota_timeout_ms_ : N;
  report_timeout_ms_ : N;
  check_retries_ : N;
  quota_retries_ : N;
  report_retries_ : N
}.

Definition set_filter_stats_ (st : ServiceControlFilterStats) (c : ClientCache) :=
  MkClientCache (config_ c) st (network_fail_open_ c)
    (check_timeout_ms_ c) (quota_timeout_ms_ c) (report_timeout_ms_ c)
    (check_retries_ c) (quota_retries_ c) (report_retries_ c).
Definition set_network_fail_open_ (v : bool) (c : ClientCache) :=
  MkClientCache (config_ c) (filter_stats_ c) v
    (check_timeout_ms_ c) (quota_timeout_ms_ c) (report_timeout_ms_ c)
    (check_retries_ c) (quota_retries_ c) (report_retries_ c).
Definition set_check_timeout_ms_ (v : N) (c : ClientCache) :=
  MkClientCache (config_ c) (filter_stats_ c) (network_fail_open_ c)
    v (quota_timeout_ms_ c) (report_timeout_ms_ c)
    (check_retries_ c) (quota_retries_ c) (report_retries_ c).
Definition set_quota_timeout_ms_ (v : N) (c : ClientCache) :=
  MkClientCache (config_ c) (filter_stats_ c) (network_fail_open_ c)
    (check_timeout_ms_ c) v (report_timeout_ms_ c)
    (check_retries_ c) (quota_retries_ c) (report_retries_ c).
Definition set_report_timeout_ms_ (v : N) (c : ClientCache) :=
  MkClientCache (config_ c) (filter_stats_ c) (network_fail_open_ c)
    (check_timeout_ms_ c) (quota_timeout_ms_ c) v
    (check_retries_ c) (quota_retries_ c) (report_retries_ c).
Definition set_check_retries_ (v : N) (c : ClientCache) :=
  MkClientCache (config_ c) (filter_stats_ c) (network_fail_open_ c)
    (check_timeout_ms_ c) (quota_timeout_ms_ c) (report_timeout_ms_ c)
    v (quota_retries_ c) (report_retries_ c).
Definition set_quota_retries_ (v : N) (c : ClientCache) :=
  MkClientCache (config_ c) (filter_stats_ c) (network_fail_open_ c)
    (check_timeout_ms_ c) (quota_timeout_ms_ c) (report_timeout_ms_ c)
    (check_retries_ c) v (report_retries_ c).
Definition set_report_retries_ (v : N) (c : ClientCache) :=
  MkClientCache (config_ c) (filter_stats_ c) (network_fail_open_ c)
    (check_timeout_ms_ c) (quota_timeout_ms_ c) (report_timeout_ms_ c)
    (check_retries_ c) (quota_retries_ c) v.

(** ** Events *)

Inductive LogLevel : Type := log_error | log_warn.

(** An argument of a log line: a string, or a status printed by the
    logger. *)
Inductive LogArg : Type :=
| ArgString (s : string)
| ArgStatus (s : Status).

(** What a member function does to the outside, in the order it does it. *)
Inductive Event (CheckD QuotaD : Type) : Type :=
| EnvoyLog (level : LogLevel) (fmt : string) (args : list LogArg)
| TransportDone (t : CallType) (final_status : Status)
| CheckDone (status : Status) (info : CheckResponseInfo CheckD)
| QuotaDone (status : Status) (info : QuotaResponseInfo QuotaD)
| ApiKeyStateAssigned (s : ApiKeyState)
| ResponseDeleted (t : CallType).
Arguments EnvoyLog {CheckD QuotaD}.
Arguments TransportDone {CheckD QuotaD}.
Arguments CheckDone {CheckD QuotaD}.
Arguments QuotaDone {CheckD QuotaD}.
Arguments ApiKeyStateAssigned {CheckD QuotaD}.
Arguments ResponseDeleted {CheckD QuotaD}.

(** The invocations of the Check completion callback in a run. *)
Definition check_done_calls {CheckD QuotaD} (evs : list (Event CheckD QuotaD))
  : list (Status * CheckResponseInfo CheckD) :=
  omap (λ e, match e with CheckDone s i => Some (s, i) | _ => None end) evs.

(** The invocations of the Quota completion callback in a run. *)
Definition quota_done_calls {CheckD QuotaD} (evs : list (Event CheckD QuotaD))
  : list (Status * QuotaResponseInfo QuotaD) :=
  omap (λ e, match e with QuotaDone s i => Some (s, i) | _ => None end) evs.

(** The statuses handed back to the aggregation client by a transport. *)
Definition transport_done_calls {CheckD QuotaD} (evs : list (Event CheckD QuotaD))
  : list (CallType * Status) :=
  omap (λ e, match e with TransportDone t s => Some (t, s) | _ => None end) evs.

(** The values assigned to [response_info.api_key_state] in a run. *)
Definition api_key_state_assignments {CheckD QuotaD}
    (evs : list (Event CheckD QuotaD)) : list ApiKeyState :=
  omap (λ e, match e with ApiKeyStateAssigned s => Some s | _ => None end) evs.

(** The decision a Check callback invocation carries. *)
Inductive CheckDecision : Type := Allow | Deny.

#[global] Instance CheckDecision_eq_dec : EqDecision CheckDecision.
Proof. solve_decision. Defined.

Definition decision (s : Status) : CheckDecision := if ok s then Allow else Deny.

(** The object after the counter group of call type [t] has collected
    status code [c]. *)
Definition count_call (t : CallType) (c : StatusCode) (this : ClientCache)
  : ClientCache :=
  set_filter_stats_
    (set_call_stats t
       (ServiceControlFilterStats_collectCallStatus
          (call_stats t (filter_stats_ this)) c)
       (filter_stats_ this))
    this.
Arguments count_call : simpl never.

(** The object after [filter_stats_.filter_.<counter>_.inc()]. *)
Definition bump (c : FilterCounter) (this : ClientCache) : ClientCache :=
  set_filter_stats_
    (set_filter (inc_counter c (filter_ (filter_stats_ this)))
       (filter_stats_ this))
    this.
Arguments bump : simpl never.

(** The value of a filter counter of the object. *)
Definition filter_counter (c : FilterCounter) (this : ClientCache) : N :=
  counter c (filter_ (filter_stats_ this)).
Arguments filter_counter : simpl never.

(** ** The monad of member functions *)

Section Monad.
Context {CheckD QuotaD : Type}.

(** A member function takes the object, and yields its result, the object
    as it left it and the events it caused. *)
Definition M (A : Type) : Type :=
  ClientCache → A * ClientCache * list (Event CheckD QuotaD).

#[global] Instance M_ret : MRet M := λ A x this, (x, this, []).

#[global] Instance M_bind : MBind M := λ A B f m this,
  let '(a, this1, evs1) := m this in
  let '(b, this2, evs2) := f a this1 in
  (b, this2, evs1 ++ evs2).

Definition emit (e : Event CheckD QuotaD) : M unit :=
  λ this, (tt, this, [e]).

Definition get_this : M ClientCache := λ this, (this, this, []).

Definition modify_this (f : ClientCache → ClientCache) : M unit :=
  λ this, (tt, f this, []).

(** Projections of a run. *)
Definition result {A} (r : A * ClientCache * list (Event CheckD QuotaD)) : A :=
  r.1.1.
Definition object {A} (r : A * ClientCache * list (Event CheckD QuotaD))
  : ClientCache := r.1.2.
Definition events {A} (r : A * ClientCache * list (Event CheckD QuotaD))
  : list (Event CheckD QuotaD) := r.2.

(** [ENVOY_LOG(level, fmt, args...)] *)
Definition ENVOY_LOG (level : LogLevel) (fmt : string) (args : list LogArg)
  : M unit := emit (EnvoyLog level fmt args).

(** [filter_stats_.filter_.<counter>_.inc()] *)
Definition inc (c : FilterCounter) : M unit := modify_this (bump c).

End Monad.

Arguments M : clear implicits.
Arguments result {CheckD QuotaD A} !r /.
Arguments object {CheckD QuotaD A} !r /.
Arguments events {CheckD QuotaD A} !r /.

(** ** The member functions of [ClientCache] *)

Section MemberFunctions.
Context {CheckD QuotaD : Type}.

(** The protobuf response message of each call type ([CheckResponse],
    [AllocateQuotaResponse], [ReportResponse]) and its parser:
    [resp->ParseFromString(body)] reports whether the body parsed and
    leaves the message as the parser filled it. *)
Context {Response : CallType → Type}.
Context (ParseFromString : ∀ t, Response t → string → bool * Response t).

(** The domain conversions of the service ([ConvertCheckResponse],
    [ConvertAllocateQuotaResponse]): from the decoded response and the
    service name they compute a status and fill in the response info they
    are handed. *)
Context (ConvertCheckResponse :
  Response CheckCall → string → CheckResponseInfo CheckD →
  Status * CheckResponseInfo CheckD).
Context (ConvertAllocateQuotaResponse :
  Response AllocateQuotaCall → string → QuotaResponseInfo QuotaD →
  Status * QuotaResponseInfo QuotaD).

(** The default-constructed response infos. *)
Context (default_check_info : CheckResponseInfo CheckD).
Context (default_quota_info : QuotaResponseInfo QuotaD).

Local Abbreviation M := (M CheckD QuotaD).

(** [processScCallTransportStatus<Response>]: the template is instantiated
    at the response message of a call type [t]; the [std::is_same] tests
    select the name of the call. *)
Definition processScCallTransportStatus (t : CallType)
    (status : Status) (resp : Response t) (body : string)
  : M (Status * Response t) :=
  let callName :=
    if bool_decide (t = CheckCall) then "check"
    else if bool_decide (t = AllocateQuotaCall) then "allocateQuota"
    else if bool_decide (t = ReportCall) then "report"
    else "" in
  if negb (ok status) then
    ENVOY_LOG log_error "Failed to call {}, error: {}, str body: {}"
      [ArgString callName; ArgStatus status; ArgString body];;
    mret (status, resp)
  else
    let '(parsed, resp) := ParseFromString t resp body in
    if negb parsed then
      ENVOY_LOG log_error "Failed to call {}, error: {}, str body: {}"
        [ArgString callName; ArgString "invalid response"; ArgString body];;
      mret (mkStatus kInvalidArgument "Invalid response", resp)
    else
      mret (status, resp).

Definition initHttpRequestSetting (filter_config : FilterConfig) : M unit :=
  if negb (has_sc_calling_config filter_config) then
    modify_this (set_network_fail_open_ kDefaultNetworkFailOpen);;
    modify_this (set_check_timeout_ms_ kCheckDefaultTimeoutInMs);;
    modify_this (set_quota_timeout_ms_ kAllocateQuotaDefaultTimeoutInMs);;
    modify_this (set_report_timeout_ms_ kReportDefaultTimeoutInMs);;
    modify_this (set_check_retries_ kCheckDefaultNumberOfRetries);;
    modify_this (set_quota_retries_ kAllocateQuotaDefaultNumberOfRetries);;
    modify_this (set_report_retries_ kReportDefaultNumberOfRetries)
  else
    let sc_calling_config := sc_calling_config filter_config in
    modify_this (set_network_fail_open_
      (if has_network_fail_open sc_calling_config
       then bool_value (network_fail_open sc_calling_config)
       else true));;
    modify_this (set_check_timeout_ms_
      (if has_check_timeout_ms sc_calling_config
       then u32_value (check_timeout_ms sc_calling_config)
       else kCheckDefaultTimeoutInMs));;
    modify_this (set_quota_timeout_ms_
      (if has_quota_timeout_ms sc_calling_config
       then u32_value (quota_timeout_ms sc_calling_config)
       else kAllocateQuotaDefaultTimeoutInMs));;
    modify_this (set_report_timeout_ms_
      (if has_report_timeout_ms sc_calling_config
       then u32_value (report_timeout_ms sc_calling_config)
       else kReportDefaultTimeoutInMs));;
    modify_this (set_check_retries_
      (if has_check_retries sc_calling_config
       then u32_value (check_retries sc_calling_config)
       else kCheckDefaultNumberOfRetries));;
    modify_this (set_quota_retries_
      (if has_quota_retries sc_calling_config
       then u32_value (quota_retries sc_calling_config)
       else kAllocateQuotaDefaultNumberOfRetries));;
    modify_this (set_report_retries_
      (if has_report_retries sc_calling_config
       then u32_value (report_retries sc_calling_config)
       else kReportDefaultNumberOfRetries)).

(** [collectCallStatus(filter_stats_.<group>_, code)]: the group of
    counters is passed by reference; [t] names the group. *)
Definition collectCallStatus (t : CallType) (c : StatusCode) : M unit :=
  modify_this (count_call t c).

(** The completion callback that each transport hands to its http call
    ([options.check_transport], [options.quota_transport],
    [options.report_transport] and the per-request transport of
    [callCheck]): decode, count the call status, hand the final status
    on. *)
Definition transport_callback (t : CallType)
    (status : Status) (response : Response t) (body : string)
  : M (Response t) :=
  '(final_status, response) ← processScCallTransportStatus t status response body;
  collectCallStatus t (code final_status);;
  emit (TransportDone t final_status);;
  mret response.

(** The [default: break;] of the switch below. *)
Definition default_case : M unit := mret tt.

Definition collectScResponseErrorStats (error_type : ScResponseErrorType)
  : M unit :=
  match error_type with
  | CONSUMER_BLOCKED =>
      inc denied_consumer_blocked
  | CONSUMER_ERROR | SERVICE_NOT_ACTIVATED | API_KEY_INVALID =>
      inc denied_consumer_error
  | CONSUMER_QUOTA =>
      inc denied_consumer_quota;;
      (* no break: control falls through *)
      default_case
  | _ => default_case
  end.

(** [response_info.api_key_state = s;] *)
Definition assign_api_key_state (s : ApiKeyState)
    (response_info : CheckResponseInfo CheckD) : M (CheckResponseInfo CheckD) :=
  emit (ApiKeyStateAssigned s);;
  mret (set_api_key_state s response_info).

Definition handleCheckResponse (http_status : Status)
    (response : Response CheckCall) : M unit :=
  let on_done status info : M unit := emit (CheckDone status info) in
  let response_info := default_check_info in
  '(final_status, response_info) ←
    (if ok http_status then
       (* If the http call succeeded, then use the CheckResponseInfo
          to retrieve the final status. *)
       this ← get_this;
       let '(final_status, response_info) :=
         ConvertCheckResponse response (service_name (config_ this))
           response_info in
       collectScResponseErrorStats (type (error response_info));;
       mret (final_status, response_info)
     else
       (* Otherwise, http call failed. Use that status to respond. *)
       mret (http_status, response_info));
  (if ok final_status then
     (* Everything succeeded, API Key is trusted. *)
     response_info ← assign_api_key_state VERIFIED response_info;
     on_done final_status response_info
   else if bool_decide (code final_status = kUnavailable) then
     (* All 5xx errors are already translated to Unavailable.
        API Key cannot be trusted due to a network error. *)
     response_info ← assign_api_key_state NOT_CHECKED response_info;
     this ← get_this;
     if network_fail_open_ this then
       inc allowed_control_plane_fault;;
       ENVOY_LOG log_warn
         ("Google Service Control Check is unavailable, but the " +:+
          "request is allowed due to network fail open. Original " +:+
          "error: {}")
         [ArgString (message final_status)];;
       on_done OkStatus response_info
     else
       (* Preserve the original 5xx error code in the response back. *)
       inc denied_control_plane_fault;;
       ENVOY_LOG log_warn
         ("Google Service Control Check is unavailable, and the " +:+
          "request is denied due to network fail closed, with error: {}")
         [ArgString (message final_status)];;
       (* If http_status is not ok, the StatusCode::kUnavailable is from
          http_status. *)
       let response_info :=
         if negb (ok http_status)
         then set_error (failCallStatusToScResponseError http_status)
                response_info
         else response_info in
       on_done final_status response_info
   else
     if negb (ok http_status) then
       (* Most likely an auth error in ESPv2 or API producer deployment. *)
       inc denied_producer_error;;
       (* API Key cannot be trusted due to network error with Service
          Control. *)
       response_info ← assign_api_key_state NOT_CHECKED response_info;
       (* This is not caused by a client request error, so translate
          non-5xx error codes to 500 Internal Server Error. Error message
          contains details on the original error (including the original
          HTTP status code). *)
       let scrubbed_status := mkStatus kInternal (message final_status) in
       let response_info :=
         set_error (failCallStatusToScResponseError http_status)
           response_info in
       on_done scrubbed_status response_info
     else
       (* HTTP succeeded, but SC Check returned 4xx.
          Stats already incremented for this case. *)
       (* Handle API Key validity. *)
       response_info ←
         (if bool_decide (type (error response_info) = API_KEY_INVALID) then
            assign_api_key_state INVALID response_info
          else if bool_decide (type (error response_info) = SERVICE_NOT_ACTIVATED) then
            assign_api_key_state NOT_ENABLED response_info
          else
            (* All other SC Check errors assume consumer was identified. *)
            assign_api_key_state VERIFIED response_info);
       on_done final_status response_info);;
  emit (ResponseDeleted CheckCall).

Definition handleQuotaOnDone (http_status : Status)
    (response : Response AllocateQuotaCall) : M unit :=
  let on_done status info : M unit := emit (QuotaDone status info) in
  let response_info := default_quota_info in
  (if ok http_status then
     this ← get_this;
     let '(quota_status, response_info) :=
       ConvertAllocateQuotaResponse response (service_name (config_ this))
         response_info in
     collectScResponseErrorStats (type (quota_error response_info));;
     on_done quota_status response_info
   else
     (* Most likely an auth error in ESPv2 or API producer deployment. *)
     inc denied_producer_error;;
     let response_info :=
       set_quota_error (failCallStatusToScResponseError http_status)
         response_info in
     on_done http_status response_info);;
  emit (ResponseDeleted AllocateQuotaCall).

(** *** Vocabulary for the properties of [handleCheckResponse] *)

(** What the domain conversion yields for a decoded Check response. *)
Definition converted_check (this : ClientCache) (response : Response CheckCall)
  : Status * CheckResponseInfo CheckD :=
  ConvertCheckResponse response (service_name (config_ this))
    default_check_info.

(** The value of the local variable [final_status] when the branching of
    [handleCheckResponse] starts. *)
Definition check_final_status (this : ClientCache) (http_status : Status)
    (response : Response CheckCall) : Status :=
  if ok http_status then (converted_check this response).1 else http_status.

(** The value of the local variable [response_info] at the same point. *)
Definition check_initial_info (this : ClientCache) (http_status : Status)
    (response : Response CheckCall) : CheckResponseInfo CheckD :=
  if ok http_status then (converted_check this response).2
  else default_check_info.

(** What the domain conversion yields for a decoded Quota response. *)
Definition converted_quota (this : ClientCache)
    (response : Response AllocateQuotaCall)
  : Status * QuotaResponseInfo QuotaD :=
  ConvertAllocateQuotaResponse response (service_name (config_ this))
    default_quota_info.

End MemberFunctions.

(** The three branches of [handleCheckResponse], by the tests the source
    makes on the final status, in their order. *)
Inductive CheckBranch : Type :=
| BranchOk
| BranchUnavailable
| BranchOtherFailure.

Definition check_branch (final_status : Status) : CheckBranch :=
  if ok final_status then BranchOk
  else if bool_decide (code final_status = kUnavailable) then BranchUnavailable
  else BranchOtherFailure.

(** The api key state that the service-level rejection branch assigns. *)
Definition rejected_key_state (e : ScResponseErrorType) : ApiKeyState :=
  if bool_decide (e = API_KEY_INVALID) then INVALID
  else if bool_decide (e = SERVICE_NOT_ACTIVATED) then NOT_ENABLED
  else VERIFIED.

(** ** Scrubbing, as a property of an output *)

(** An output computed from a failed transport status other than
    Unavailable is generic when it does not depend on the message of the
    status: no text of the original error can be read off it. *)
Definition text_independent {A} (out : Status → A) : Prop :=
  ∀ c m1 m2, c ≠ kOk → c ≠ kUnavailable →
    out (MkStatus c m1) = out (MkStatus c m2).

(** An output retains the text of the original error when the message of
    the status can be recovered from it. *)
Definition text_retained {A} (out : Status → A) : Prop :=
  ∀ c m1 m2, c ≠ kOk → c ≠ kUnavailable →
    out (MkStatus c m1) = out (MkStatus c m2) → m1 = m2.

(** ** A small control service to run the member functions on *)

Module Sample.

(** A decoded response of the sample service: the status and the error
    type its conversion reports.  The domain field of a response info is
    the consumer project, a string. *)
Definition Response (t : CallType) : Type := Status * ScResponseErrorType.

(** The sample wire format: three bodies parse, every other one is
    malformed. *)
Definition ParseFromString (t : CallType) (resp : Response t) (body : string)
  : bool * Response t :=
  if decide (body = "{}") then (true, (OkStatus, ERROR_TYPE_UNSPECIFIED))
  else if decide (body = "{API_KEY_INVALID}") then
    (true, (MkStatus kInvalidArgument "API key not valid", API_KEY_INVALID))
  else if decide (body = "{RESOURCE_EXHAUSTED}") then
    (true, (MkStatus kResourceExhausted "Quota exceeded", CONSUMER_QUOTA))
  else (false, (OkStatus, ERROR_TYPE_UNSPECIFIED)).

Definition ConvertCheckResponse (resp : Response CheckCall)
    (service_name : string) (info : CheckResponseInfo string)
  : Status * CheckResponseInfo string :=
  (resp.1,
   MkCheckResponseInfo (MkScResponseError service_name false resp.2)
     (api_key_state info) "project-1").

Definition ConvertAllocateQuotaResponse (resp : Response AllocateQuotaCall)
    (service_name : string) (info : QuotaResponseInfo string)
  : Status * QuotaResponseInfo string :=
  (resp.1,
   MkQuotaResponseInfo (MkScResponseError service_name false resp.2)
     "project-1").

Definition default_error : ScResponseError :=
  MkScResponseError "" false ERROR_TYPE_UNSPECIFIED.
Definition default_check_info : CheckResponseInfo string :=
  MkCheckResponseInfo default_error NOT_CHECKED "".
Definition default_quota_info : QuotaResponseInfo string :=
  MkQuotaResponseInfo default_error "".

Definition no_filter_stats : FilterStats := MkFilterStats 0 0 0 0 0 0.
Definition no_stats : ServiceControlFilterStats :=
  MkServiceControlFilterStats no_filter_stats ∅ ∅ ∅.

(** A freshly constructed object, with the given fail-open flag. *)
Definition cache (fail_open : bool) : ClientCache :=
  MkClientCache {| service_name := "bookstore"; service_config_id := "v1" |}
    no_stats fail_open 1000 1000 2000 3 1 5.

Definition handleCheckResponse
  : Status → Response CheckCall → M string string unit :=
  handleCheckResponse ConvertCheckResponse default_check_info.

Definition handleQuotaOnDone
  : Status → Response AllocateQuotaCall → M string string unit :=
  handleQuotaOnDone ConvertAllocateQuotaResponse default_quota_info.

Definition transport_callback (t : CallType)
  : Status → Response t → string → M string string (Response t) :=
  transport_callback ParseFromString t.

(** Decoded responses of the sample service. *)
Definition accepted : Status * ScResponseErrorType :=
  (OkStatus, ERROR_TYPE_UNSPECIFIED).
Definition key_rejected : Status * ScResponseErrorType :=
  (MkStatus kInvalidArgument "API key not valid", API_KEY_INVALID).
Definition backend_unavailable : Status * ScResponseErrorType :=
  (MkStatus kUnavailable "backends are unavailable", ERROR_TYPE_UNSPECIFIED).

(** Failed transport statuses. *)
Definition upstream_down : Status :=
  MkStatus kUnavailable "upstream connect error".
Definition token_rejected : Status :=
  MkStatus kUnauthenticated "JWT signature mismatch".
Definition role_missing : Status :=
  MkStatus kPermissionDenied "service account lacks role".

(** What the caller of a Check, and of a Quota, is handed for a transport
    status, and the errors of the response infos. *)
Definition check_caller_statuses (s : Status) : list Status :=
  (check_done_calls (events (handleCheckResponse s accepted (cache true)))).*1.
Definition check_info_errors (s : Status) : list ScResponseError :=
  error <$>
    (check_done_calls (events (handleCheckResponse s accepted (cache true)))).*2.
Definition quota_caller_statuses (s : Status) : list Status :=
  (quota_done_calls (events (handleQuotaOnDone s accepted (cache true)))).*1.
Definition quota_info_errors (s : Status) : list ScResponseError :=
  quota_error <$>
    (quota_done_calls (events (handleQuotaOnDone s accepted (cache true)))).*2.

End Sample.

(** ** Aggregation options *)

(** Default config for check aggregator *)
Definition kCheckAggregationEntries : N := 10000.
(** FlushInterval (5m) and Expiration (1h) of the check cache. *)
Definition kCheckAggregationFlushIntervalMs : N := 5 * 60 * 1000.
Definition kCheckAggregationExpirationMs : N := 60 * 60 * 1000.

(** Default config for quota aggregator *)
Definition kQuotaAggregationEntries : N := 10000.
Definition kQuotaAggregationFlushIntervalMs : N := 1000.

(** Default config for report aggregator *)
Definition kReportAggregationEntries : N := 10000.
Definition kReportAggregationFlushIntervalMs : N := 1000.

Record CheckAggregationOptions : Type := MkCheckAggregationOptions {
  check_num_entries : N;
  check_flush_interval_ms : N;
  check_expiration_ms : N
}.

Record QuotaAggregationOptions : Type := MkQuotaAggregationOptions {
  quota_num_entries : N;
  quota_refresh_interval_ms : N
}.

Record ReportAggregationOptions : Type := MkReportAggregationOptions {
  report_num_entries : N;
  report_flush_interval_ms : N
}.

(** Generates CheckAggregationOptions. *)
Definition getCheckAggregationOptions : CheckAggregationOptions :=
  MkCheckAggregationOptions kCheckAggregationEntries
    kCheckAggregationFlushIntervalMs kCheckAggregationExpirationMs.

(** Generates QuotaAggregationOptions. *)
Definition getQuotaAggregationOptions : QuotaAggregationOptions :=
  MkQuotaAggregationOptions kQuotaAggregationEntries
    kQuotaAggregationFlushIntervalMs.

(** Generates ReportAggregationOptions. *)
Definition getReportAggregationOptions : ReportAggregationOptions :=
  MkReportAggregationOptions kReportAggregationEntries
    kReportAggregationFlushIntervalMs.

(** The aggregation part of [ServiceControlClientOptions]; the completion
    callback of its transports is [transport_callback], and its periodic
    timer is the one below. *)
Record ServiceControlClientOptions : Type := MkServiceControlClientOptions {
  check_options : CheckAggregationOptions;
  quota_options : QuotaAggregationOptions;
  report_options : ReportAggregationOptions
}.

(** ** The periodic timer *)

(** [EnvoyPeriodicTimer] wraps a timer of the dispatcher.  Such a timer is
    one-shot: [enableTimer(d)] arms it for the duration [d], and when it
    fires it is disarmed and its callback runs.  [timer_] is the owning
    pointer: [None] once it has been reset, otherwise the timer with its
    pending duration, if armed. *)
Record EnvoyPeriodicTimer : Type := MkEnvoyPeriodicTimer {
  interval_ms_ : Z;
  timer_ : option (option Z)
}.

#[global] Instance EnvoyPeriodicTimer_eq_dec : EqDecision EnvoyPeriodicTimer.
Proof. solve_decision. Defined.

(** The constructor creates the timer and enables it. *)
Definition EnvoyPeriodicTimer_new (interval_ms : Z) : EnvoyPeriodicTimer :=
  {| interval_ms_ := interval_ms; timer_ := Some (Some interval_ms) |}.

(** [call()]: [callback_(); timer_->enableTimer(interval_ms_)].  The result
    is the number of invocations of [callback_] and the timer afterwards;
    there is none when [timer_] is null, where the source dereferences a
    null pointer. *)
Definition EnvoyPeriodicTimer_call (t : EnvoyPeriodicTimer)
  : option (nat * EnvoyPeriodicTimer) :=
  match timer_ t with
  | Some _ =>
      Some (1%nat,
            {| interval_ms_ := interval_ms_ t;
               timer_ := Some (Some (interval_ms_ t)) |})
  | None => None
  end.

(** Cancels the timer: [timer_.reset()]. *)
Definition EnvoyPeriodicTimer_Stop (t : EnvoyPeriodicTimer)
  : EnvoyPeriodicTimer :=
  {| interval_ms_ := interval_ms_ t; timer_ := None |}.

(** The dispatcher fires an armed timer: it disarms it and runs the
    callback the constructor gave it, [[this]() { call(); }].  A timer that
    is not armed, or no longer exists, does not fire. *)
Definition EnvoyPeriodicTimer_fire (t : EnvoyPeriodicTimer)
  : option (nat * EnvoyPeriodicTimer) :=
  match timer_ t with
  | Some (Some _) =>
      EnvoyPeriodicTimer_call
        {| interval_ms_ := interval_ms_ t; timer_ := Some None |}
  | _ => None
  end.

(** [n] firings in a row; the callback invocations add up. *)
Fixpoint EnvoyPeriodicTimer_fire_times (n : nat) (t : EnvoyPeriodicTimer)
  : option (nat * EnvoyPeriodicTimer) :=
  match n with
  | O => Some (O, t)
  | S n' =>
      match EnvoyPeriodicTimer_fire t with
      | Some (k, t') =>
          match EnvoyPeriodicTimer_fire_times n' t' with
          | Some (k', t'') => Some ((k + k')%nat, t'')
          | None => None
          end
      | None => None
      end
  end.

(** ** Construction *)

(** The two token suppliers handed to the constructor. *)
Inductive TokenFn : Type := sc_token_fn | quota_token_fn.

#[global] Instance TokenFn_eq_dec : EqDecision TokenFn.
Proof. solve_decision. Defined.

(** What an [HttpCallFactoryImpl] is constructed with, the cluster
    manager, the dispatcher and the time source apart. *)
Record HttpCallFactoryImpl : Type := MkHttpCallFactoryImpl {
  factory_uri : string;
  factory_suffix_url : string;
  factory_token_fn : TokenFn;
  factory_timeout_ms : N;
  factory_retries : N;
  factory_trace_operation_name : string
}.

(** What the constructor builds besides the data members of the object: the
    three call factories and the aggregation client, created from the
    service name, the service config id and the options. *)
Record Collaborators : Type := MkCollaborators {
  check_call_factory_ : HttpCallFactoryImpl;
  quota_call_factory_ : HttpCallFactoryImpl;
  report_call_factory_ : HttpCallFactoryImpl;
  client_service_name : string;
  client_service_config_id : string;
  client_options : ServiceControlClientOptions
}.

(** The object when the constructor body starts: [config_] and
    [filter_stats_] are initialised by the member initialisers; the seven
    settings are not, and hold whatever [uninitialised] holds. *)
Definition member_initializers (config : Service)
    (created_stats : ServiceControlFilterStats) (uninitialised : ClientCache)
  : ClientCache :=
  MkClientCache config created_stats
    (network_fail_open_ uninitialised)
    (check_timeout_ms_ uninitialised) (quota_timeout_ms_ uninitialised)
    (report_timeout_ms_ uninitialised)
    (check_retries_ uninitialised) (quota_retries_ uninitialised)
    (report_retries_ uninitialised).

Section Construction.
Context {CheckD QuotaD : Type}.

Local Abbreviation M := (M CheckD QuotaD).

(** The body of [ClientCache::ClientCache]. *)
Definition ClientCache_body (filter_config : FilterConfig) : M Collaborators :=
  let options :=
    MkServiceControlClientOptions getCheckAggregationOptions
      getQuotaAggregationOptions getReportAggregationOptions in
  initHttpRequestSetting filter_config;;
  this ← get_this;
  let check_call_factory_ :=
    MkHttpCallFactoryImpl (service_control_uri filter_config)
      ("/" +:+ service_name (config_ this) +:+ ":check") sc_token_fn
      (check_timeout_ms_ this) (check_retries_ this)
      "Service Control remote call: Check" in
  let quota_call_factory_ :=
    MkHttpCallFactoryImpl (service_control_uri filter_config)
      ("/" +:+ service_name (config_ this) +:+ ":allocateQuota")
      quota_token_fn
      (quota_timeout_ms_ this) (quota_retries_ this)
      "Service Control remote call: Allocate Quota" in
  let report_call_factory_ :=
    MkHttpCallFactoryImpl (service_control_uri filter_config)
      ("/" +:+ service_name (config_ this) +:+ ":report") sc_token_fn
      (report_timeout_ms_ this) (report_retries_ this)
      "Service Control remote call: Report" in
  mret (MkCollaborators check_call_factory_ quota_call_factory_
          report_call_factory_
          (service_name (config_ this)) (service_config_id (config_ this))
          options).

(** [ClientCache::ClientCache]: the member initialisers, then the body. *)
Definition ClientCache_new (config : Service) (filter_config : FilterConfig)
    (created_stats : ServiceControlFilterStats) (uninitialised : ClientCache)
  : Collaborators * ClientCache * list (Event CheckD QuotaD) :=
  ClientCache_body filter_config
    (member_initializers config created_stats uninitialised).

End Construction.

(** ** The entry points *)

(** What an entry point does to the outside: what a completion handler
    does, and before it the allocation of the response. *)
Inductive CallEvent (CheckD QuotaD : Type) : Type :=
| ResponseAllocated (t : CallType)
| Handled (e : Event CheckD QuotaD).
Arguments ResponseAllocated {CheckD QuotaD}.
Arguments Handled {CheckD QuotaD}.

(** The events of the completion handlers among those of an entry point. *)
Definition handled_events {CheckD QuotaD} (evs : list (CallEvent CheckD QuotaD))
  : list (Event CheckD QuotaD) :=
  omap (λ e, match e with Handled e' => Some e' | _ => None end) evs.

Section EntryPoints.
Context {CheckD QuotaD : Type}.
Context {Response : CallType → Type}.
Context (ConvertAllocateQuotaResponse :
  Response AllocateQuotaCall → string → QuotaResponseInfo QuotaD →
  Status * QuotaResponseInfo QuotaD).
Context (default_quota_info : QuotaResponseInfo QuotaD).

(** An entry point, like a member function, with the events above. *)
Definition Entry (A : Type) : Type :=
  ClientCache → A * ClientCache * list (CallEvent CheckD QuotaD).

#[global] Instance Entry_ret : MRet Entry := λ A x this, (x, this, []).

#[global] Instance Entry_bind : MBind Entry := λ A B f m this,
  let '(a, this1, evs1) := m this in
  let '(b, this2, evs2) := f a this1 in
  (b, this2, evs1 ++ evs2).

Definition entry_emit (e : CallEvent CheckD QuotaD) : Entry unit :=
  λ this, (tt, this, [e]).

(** A member function run inside an entry point. *)
Definition handled {A} (m : M CheckD QuotaD A) : Entry A :=
  λ this, let '(a, this', evs) := m this in (a, this', Handled <$> evs).

(** [callQuota] allocates the response and hands the aggregation client,
    which is no part of this translation unit, a completion callback that
    runs [handleQuotaOnDone].  The status the client invokes that callback
    with, and the response it has filled in by then, are taken as given:
    the source notes that the client is configured to always answer a
    Quota from its cache. *)
Definition callQuota (status : Status) (response : Response AllocateQuotaCall)
  : Entry unit :=
  entry_emit (ResponseAllocated AllocateQuotaCall);;
  handled (handleQuotaOnDone ConvertAllocateQuotaResponse default_quota_info
             status response).

(** [callReport] allocates the response and hands the aggregation client
    the completion callback [[response](const Status&) { delete response; }];
    the status the client invokes it with is taken as given. *)
Definition callReport (status : Status) : Entry unit :=
  entry_emit (ResponseAllocated ReportCall);;
  handled (emit (ResponseDeleted ReportCall)).

End EntryPoints.

Arguments Entry : clear implicits.

(** ** Further vocabulary *)

(** The responses deleted in a run. *)
Definition deleted_responses {CheckD QuotaD} (evs : list (Event CheckD QuotaD))
  : list CallType :=
  omap (λ e, match e with ResponseDeleted t => Some t | _ => None end) evs.

(** The log lines of a run, by level. *)
Definition log_levels {CheckD QuotaD} (evs : list (Event CheckD QuotaD))
  : list LogLevel :=
  omap (λ e, match e with EnvoyLog l _ _ => Some l | _ => None end) evs.

(** The counters that record a fault of the control plane or of the
    producer, and those that record a denial of the consumer, summed. *)
Definition fault_count (this : ClientCache) : N :=
  filter_counter allowed_control_plane_fault this
  + filter_counter denied_control_plane_fault this
  + filter_counter denied_producer_error this.

Definition denial_count (this : ClientCache) : N :=
  filter_counter denied_consumer_blocked this
  + filter_counter denied_consumer_error this
  + filter_counter denied_consumer_quota this.

(** The error statistics of a list of responses, collected in order. *)
Fixpoint collect_all {CheckD QuotaD} (es : list ScResponseErrorType)
  : M CheckD QuotaD unit :=
  match es with
  | [] => mret tt
  | e :: es' => collectScResponseErrorStats e;; collect_all es'
  end.

(** The object [this'] differs from [this] at most in the counters of
    [filter_stats_.filter_], none of which is smaller. *)
Definition only_counters_grow (this this' : ClientCache) : Prop :=
  ∃ fs : FilterStats,
    this' = set_filter_stats_ (set_filter fs (filter_stats_ this)) this ∧
    ∀ c, (counter c (filter_ (filter_stats_ this)) ≤ counter c fs)%N.

(** * Properties *)

(** ** Statuses *)

Lemma ok_true (s : Status) : ok s = true ↔ code s = kOk.
Proof. unfold ok. apply bool_decide_eq_true. Qed.

Lemma ok_false (s : Status) : ok s = false ↔ code s ≠ kOk.
Proof. unfold ok. apply bool_decide_eq_false. Qed.

Lemma ok_OkStatus : ok OkStatus = true.
Proof. reflexivity. Qed.

Lemma unavailable_not_ok (s : Status) : code s = kUnavailable → ok s = false.
Proof. intros H. apply ok_false. by rewrite H. Qed.

Lemma mkStatus_not_ok (c : StatusCode) (msg : string) :
  c ≠ kOk → mkStatus c msg = MkStatus c msg.
Proof. intros H. unfold mkStatus. by destruct (decide (c = kOk)). Qed.

Lemma decision_allow (s : Status) : decision s = Allow ↔ ok s = true.
Proof. unfold decision. by destruct (ok s). Qed.

Lemma decision_deny (s : Status) : decision s = Deny ↔ ok s = false.
Proof. unfold decision. by destruct (ok s). Qed.

(** ** Counters *)

Lemma counter_inc_counter (c c' : FilterCounter) (fs : FilterStats) :
  counter c' (inc_counter c fs) =
  (counter c' fs + if decide (c = c') then 1 else 0)%N.
Proof. destruct c, c'; simpl; lia. Qed.

Lemma filter_counter_bump (c c' : FilterCounter) (this : ClientCache) :
  filter_counter c' (bump c this) =
  (filter_counter c' this + if decide (c = c') then 1 else 0)%N.
Proof. unfold filter_counter, bump. simpl. apply counter_inc_counter. Qed.

Lemma filter_counter_bump_eq (c : FilterCounter) (this : ClientCache) :
  filter_counter c (bump c this) = (filter_counter c this + 1)%N.
Proof. rewrite filter_counter_bump. by rewrite decide_True. Qed.

Lemma filter_counter_bump_ne (c c' : FilterCounter) (this : ClientCache) :
  c ≠ c' → filter_counter c' (bump c this) = filter_counter c' this.
Proof. intros H. rewrite filter_counter_bump, decide_False by done. lia. Qed.

Lemma call_counter_bump (t : CallType) (sc : StatusCode) (c : FilterCounter)
    (this : ClientCache) :
  call_counter t sc (filter_stats_ (bump c this)) =
  call_counter t sc (filter_stats_ this).
Proof. by destruct t. Qed.

Lemma network_fail_open_bump (c : FilterCounter) (this : ClientCache) :
  network_fail_open_ (bump c this) = network_fail_open_ this.
Proof. reflexivity. Qed.

Lemma config_bump (c : FilterCounter) (this : ClientCache) :
  config_ (bump c this) = config_ this.
Proof. reflexivity. Qed.

Lemma filter_counter_count_call (t : CallType) (sc : StatusCode)
    (c : FilterCounter) (this : ClientCache) :
  filter_counter c (count_call t sc this) = filter_counter c this.
Proof. by destruct t. Qed.

Lemma call_counter_count_call (t t' : CallType) (sc sc' : StatusCode)
    (this : ClientCache) :
  call_counter t' sc' (filter_stats_ (count_call t sc this)) =
  (call_counter t' sc' (filter_stats_ this)
   + if decide (t = t' ∧ sc = sc') then 1 else 0)%N.
Proof.
  unfold call_counter, count_call, ServiceControlFilterStats_collectCallStatus.
  case_decide as Hsame.
  - destruct Hsame as [<- <-].
    destruct t; simpl; rewrite lookup_insert_eq; simpl; lia.
  - destruct (decide (t = t')) as [<-|Ht].
    + assert (sc ≠ sc') by (intros ->; by apply Hsame).
      destruct t; simpl; rewrite lookup_insert_ne by done; lia.
    + destruct t, t'; try done; simpl; lia.
Qed.

(** ** Running the member functions *)

Section Runs.
Context {CheckD QuotaD : Type}.
Context {Response : CallType → Type}.
Context (ParseFromString : ∀ t, Response t → string → bool * Response t).
Context (ConvertCheckResponse :
  Response CheckCall → string → CheckResponseInfo CheckD →
  Status * CheckResponseInfo CheckD).
Context (ConvertAllocateQuotaResponse :
  Response AllocateQuotaCall → string → QuotaResponseInfo QuotaD →
  Status * QuotaResponseInfo QuotaD).
Context (default_check_info : CheckResponseInfo CheckD).
Context (default_quota_info : QuotaResponseInfo QuotaD).

Local Abbreviation M := (M CheckD QuotaD).
Local Abbreviation handleCheck :=
  (handleCheckResponse (QuotaD:=QuotaD) ConvertCheckResponse default_check_info).
Local Abbreviation handleQuota :=
  (handleQuotaOnDone (CheckD:=CheckD) ConvertAllocateQuotaResponse
     default_quota_info).
Local Abbreviation converted :=
  (converted_check ConvertCheckResponse default_check_info).
Local Abbreviation final_status :=
  (check_final_status ConvertCheckResponse default_check_info).
Local Abbreviation initial_info :=
  (check_initial_info ConvertCheckResponse default_check_info).

(** The object after the error statistics of a converted response have
    been collected. *)
Lemma collectScResponseErrorStats_run (e : ScResponseErrorType)
    (this : ClientCache) :
  collectScResponseErrorStats (CheckD:=CheckD) (QuotaD:=QuotaD) e this =
  (tt,
   match e with
   | CONSUMER_BLOCKED => bump denied_consumer_blocked this
   | CONSUMER_ERROR | SERVICE_NOT_ACTIVATED | API_KEY_INVALID =>
       bump denied_consumer_error this
   | CONSUMER_QUOTA => bump denied_consumer_quota this
   | ERROR_TYPE_UNSPECIFIED => this
   end,
   []).
Proof. by destruct e. Qed.

Lemma collectScResponseErrorStats_config (e : ScResponseErrorType)
    (this : ClientCache) :
  let this' := object (collectScResponseErrorStats (CheckD:=CheckD)
                         (QuotaD:=QuotaD) e this) in
  network_fail_open_ this' = network_fail_open_ this ∧
  config_ this' = config_ this ∧
  filter_counter allowed_control_plane_fault this'
    = filter_counter allowed_control_plane_fault this ∧
  filter_counter denied_control_plane_fault this'
    = filter_counter denied_control_plane_fault this ∧
  filter_counter denied_producer_error this'
    = filter_counter denied_producer_error this.
Proof. by destruct e. Qed.

Ltac unfold_M :=
  unfold mbind, M_bind, mret, M_ret, emit, get_this, modify_this,
    assign_api_key_state, ENVOY_LOG, inc.

Lemma handleCheck_failed_run http_status response this :
  ok http_status = false →
  let r := handleCheck http_status response this in
  if bool_decide (code http_status = kUnavailable) then
    if network_fail_open_ this then
      object r = bump allowed_control_plane_fault this ∧
      check_done_calls (events r) =
        [(OkStatus, set_api_key_state NOT_CHECKED default_check_info)] ∧
      api_key_state_assignments (events r) = [NOT_CHECKED]
    else
      object r = bump denied_control_plane_fault this ∧
      check_done_calls (events r) =
        [(http_status,
          set_error (failCallStatusToScResponseError http_status)
            (set_api_key_state NOT_CHECKED default_check_info))] ∧
      api_key_state_assignments (events r) = [NOT_CHECKED]
  else
    object r = bump denied_producer_error this ∧
    check_done_calls (events r) =
      [(MkStatus kInternal (message http_status),
        set_error (failCallStatusToScResponseError http_status)
          (set_api_key_state NOT_CHECKED default_check_info))] ∧
    api_key_state_assignments (events r) = [NOT_CHECKED].
Proof.
  intros Hfailed. unfold handleCheckResponse. unfold_M.
  rewrite !Hfailed. simpl.
  destruct (bool_decide (code http_status = kUnavailable)); simpl.
  - rewrite ?Hfailed. by destruct (network_fail_open_ this).
  - done.
Qed.

Lemma handleCheck_ok_run http_status response this fs info :
  ok http_status = true →
  converted this response = (fs, info) →
  let this1 := object (collectScResponseErrorStats (CheckD:=CheckD)
                         (QuotaD:=QuotaD) (type (error info)) this) in
  let r := handleCheck http_status response this in
  match check_branch fs with
  | BranchOk =>
      object r = this1 ∧
      check_done_calls (events r) = [(fs, set_api_key_state VERIFIED info)] ∧
      api_key_state_assignments (events r) = [VERIFIED]
  | BranchUnavailable =>
      if network_fail_open_ this then
        object r = bump allowed_control_plane_fault this1 ∧
        check_done_calls (events r) =
          [(OkStatus, set_api_key_state NOT_CHECKED info)] ∧
        api_key_state_assignments (events r) = [NOT_CHECKED]
      else
        object r = bump denied_control_plane_fault this1 ∧
        check_done_calls (events r) =
          [(fs, set_api_key_state NOT_CHECKED info)] ∧
        api_key_state_assignments (events r) = [NOT_CHECKED]
  | BranchOtherFailure =>
      object r = this1 ∧
      check_done_calls (events r) =
        [(fs, set_api_key_state (rejected_key_state (type (error info))) info)] ∧
      api_key_state_assignments (events r) =
        [rejected_key_state (type (error info))]
  end.
Proof.
  intros Hok Hconv. unfold converted_check in Hconv.
  unfold handleCheckResponse. unfold_M.
  rewrite !Hok, Hconv. simpl.
  rewrite collectScResponseErrorStats_run. simpl.
  unfold check_branch, rejected_key_state.
  destruct (ok fs); simpl; [done|].
  destruct (bool_decide (code fs = kUnavailable)); simpl.
  - rewrite ?Hok. simpl.
    assert (network_fail_open_
      match type (error info) with
      | ERROR_TYPE_UNSPECIFIED => this
      | CONSUMER_BLOCKED => bump denied_consumer_blocked this
      | CONSUMER_QUOTA => bump denied_consumer_quota this
      | _ => bump denied_consumer_error this
      end = network_fail_open_ this) as -> by (by destruct (type (error info))).
    by destruct (network_fail_open_ this).
  - rewrite ?Hok. simpl.
    destruct (bool_decide (type (error info) = API_KEY_INVALID)); [done|].
    by destruct (bool_decide (type (error info) = SERVICE_NOT_ACTIVATED)).
Qed.

(** ** The Check decision *)

(** C1. A Check call whose final status is Unavailable leaves
    [api_key_state] at [NOT_CHECKED].  With network fail open the callback
    receives the OK status (allow) and [allowed_control_plane_fault] grows
    by one, whatever the response was; with network fail closed the
    callback receives the final status itself, a deny with code
    Unavailable, and when the transport had failed the error of the
    response info is the one made from the transport status: a network
    error of unspecified type whose name is that of the code,
    ["UNAVAILABLE"]. *)
Theorem check_unavailable_fail_open_fail_closed
    (http_status : Status) (response : Response CheckCall)
    (this : ClientCache) :
  code (final_status this http_status response) = kUnavailable →
  let r := handleCheck http_status response this in
  ∃ status info,
    check_done_calls (events r) = [(status, info)] ∧
    api_key_state info = NOT_CHECKED ∧
    api_key_state_assignments (events r) = [NOT_CHECKED] ∧
    (network_fail_open_ this = true →
       status = OkStatus ∧ decision status = Allow ∧
       info = set_api_key_state NOT_CHECKED
                (initial_info this http_status response) ∧
       filter_counter allowed_control_plane_fault (object r) =
         filter_counter allowed_control_plane_fault this + 1) ∧
    (network_fail_open_ this = false →
       status = final_status this http_status response ∧
       code status = kUnavailable ∧ decision status = Deny ∧
       filter_counter allowed_control_plane_fault (object r) =
         filter_counter allowed_control_plane_fault this ∧
       (ok http_status = false →
          error info = failCallStatusToScResponseError http_status ∧
          name (error info) = "UNAVAILABLE" ∧
          is_network_error (error info) = true ∧
          type (error info) = ERROR_TYPE_UNSPECIFIED)).
Proof.
  intros Hcode r. subst r.
  unfold check_final_status, check_initial_info in *.
  destruct (ok http_status) eqn:Hhttp.
  - destruct (converted this response) as [fs info0] eqn:Hconv.
    simpl in Hcode.
    pose proof (handleCheck_ok_run _ _ _ _ _ Hhttp Hconv) as Hrun.
    simpl in Hrun. unfold check_branch in Hrun.
    rewrite (unavailable_not_ok _ Hcode) in Hrun.
    rewrite bool_decide_true in Hrun by done.
    destruct (collectScResponseErrorStats_config (type (error info0)) this)
      as (_ & _ & Hallowed & _).
    destruct (network_fail_open_ this);
      destruct Hrun as (Hobj & Hcalls & Hassign);
      eexists _, _; (split; [exact Hcalls|]); (split; [done|]);
      (split; [exact Hassign|]); split; intros; try done.
    + repeat split; try done.
      rewrite Hobj, filter_counter_bump_eq. by rewrite Hallowed.
    + repeat split; try done.
      * by apply decision_deny, unavailable_not_ok.
      * rewrite Hobj, filter_counter_bump_ne by done. by rewrite Hallowed.
  - pose proof (handleCheck_failed_run _ response this Hhttp) as Hrun.
    simpl in Hrun. rewrite bool_decide_true in Hrun by done.
    destruct (network_fail_open_ this);
      destruct Hrun as (Hobj & Hcalls & Hassign);
      eexists _, _; (split; [exact Hcalls|]); (split; [done|]);
      (split; [exact Hassign|]); split; intros; try done.
    + repeat split; try done.
      by rewrite Hobj, filter_counter_bump_eq.
    + repeat split; try done.
      * by apply decision_deny.
      * by rewrite Hobj, filter_counter_bump_ne.
      * simpl. by rewrite Hcode.
Qed.



(** C7. In every run of [handleCheckResponse] exactly one of the three
    branch conditions holds for the final status, the completion callback
    is invoked exactly once, with a status that is either an allow or a
    deny, and [api_key_state] is assigned exactly once, to the value the
    callback receives. *)
Theorem check_one_branch_one_callback
    (http_status : Status) (response : Response CheckCall)
    (this : ClientCache) :
  let r := handleCheck http_status response this in
  let fs := final_status this http_status response in
  (* the three conditions are exhaustive and mutually exclusive *)
  ((code fs = kOk ∧ code fs ≠ kUnavailable ∧ check_branch fs = BranchOk) ∨
   (code fs ≠ kOk ∧ code fs = kUnavailable ∧
      check_branch fs = BranchUnavailable) ∨
   (code fs ≠ kOk ∧ code fs ≠ kUnavailable ∧
      check_branch fs = BranchOtherFailure)) ∧
  (* one callback invocation, one assignment *)
  length (check_done_calls (events r)) = 1%nat ∧
  length (api_key_state_assignments (events r)) = 1%nat ∧
  ∃ status info,
    check_done_calls (events r) = [(status, info)] ∧
    api_key_state_assignments (events r) = [api_key_state info] ∧
    (decision status = Allow ∧ decision status ≠ Deny ∨
     decision status = Deny ∧ decision status ≠ Allow) ∧
    match check_branch fs with
    | BranchOk =>
        status = fs ∧ decision status = Allow ∧ api_key_state info = VERIFIED
    | BranchUnavailable =>
        status = (if network_fail_open_ this then OkStatus else fs) ∧
        decision status = (if network_fail_open_ this then Allow else Deny) ∧
        api_key_state info = NOT_CHECKED
    | BranchOtherFailure =>
        status = (if ok http_status then fs
                  else MkStatus kInternal (message fs)) ∧
        decision status = Deny ∧
        api_key_state info =
          (if ok http_status
           then rejected_key_state
                  (type (error (initial_info this http_status response)))
           else NOT_CHECKED)
    end.
Proof.
  intros r fs. subst r fs.
  assert (∀ s : Status,
    (code s = kOk ∧ code s ≠ kUnavailable ∧ check_branch s = BranchOk) ∨
    (code s ≠ kOk ∧ code s = kUnavailable ∧
       check_branch s = BranchUnavailable) ∨
    (code s ≠ kOk ∧ code s ≠ kUnavailable ∧
       check_branch s = BranchOtherFailure)) as Hbranches.
  { intros [c m]. unfold check_branch, ok. simpl.
    destruct c; simpl;
      first [ by left | by right; left | by right; right ]. }
  split; [apply Hbranches|].
  assert (∀ s : Status,
    decision s = Allow ∧ decision s ≠ Deny ∨
    decision s = Deny ∧ decision s ≠ Allow) as Hdecision.
  { intros s. unfold decision. destruct (ok s); [by left | by right]. }
  unfold check_final_status, check_initial_info.
  destruct (ok http_status) eqn:Hhttp.
  - destruct (converted this response) as [fs info] eqn:Hconv. simpl.
    pose proof (handleCheck_ok_run _ _ _ _ _ Hhttp Hconv) as Hrun.
    simpl in Hrun. unfold check_branch in *.
    destruct (ok fs) eqn:Hfs.
    + destruct Hrun as (_ & -> & ->).
      split; [done|]. split; [done|]. eexists _, _.
      repeat split; try done. by apply decision_allow.
    + destruct (bool_decide (code fs = kUnavailable)).
      * destruct (network_fail_open_ this);
          destruct Hrun as (_ & -> & ->);
          (split; [done|]); (split; [done|]); eexists _, _;
          repeat split; try done.
        by apply decision_deny.
      * destruct Hrun as (_ & -> & ->).
        split; [done|]. split; [done|]. eexists _, _.
        repeat split; try done. by apply decision_deny.
  - pose proof (handleCheck_failed_run _ response this Hhttp) as Hrun.
    simpl in Hrun. unfold check_branch. rewrite Hhttp.
    destruct (bool_decide (code http_status = kUnavailable)).
    + destruct (network_fail_open_ this);
        destruct Hrun as (_ & -> & ->);
        (split; [done|]); (split; [done|]); eexists _, _;
        repeat split; try done.
      by apply decision_deny.
    + destruct Hrun as (_ & -> & ->).
      split; [done|]. split; [done|]. eexists _, _.
      repeat split; done.
Qed.

(** ** The Quota decision *)

Lemma handleQuota_failed_run (http_status : Status)
    (response : Response AllocateQuotaCall) (this : ClientCache) :
  ok http_status = false →
  handleQuota http_status response this =
  (tt, bump denied_producer_error this,
   [QuotaDone http_status
      (set_quota_error (failCallStatusToScResponseError http_status)
         default_quota_info);
    ResponseDeleted AllocateQuotaCall]).
Proof.
  intros Hhttp. unfold handleQuotaOnDone. unfold_M. by rewrite Hhttp.
Qed.

Lemma handleQuota_ok_run (http_status : Status)
    (response : Response AllocateQuotaCall) (this : ClientCache) :
  ok http_status = true →
  let conv :=
    converted_quota ConvertAllocateQuotaResponse default_quota_info
      this response in
  handleQuota http_status response this =
  (tt,
   object (collectScResponseErrorStats (CheckD:=CheckD) (QuotaD:=QuotaD)
             (type (quota_error conv.2)) this),
   [QuotaDone conv.1 conv.2; ResponseDeleted AllocateQuotaCall]).
Proof.
  intros Hhttp conv. subst conv. unfold converted_quota.
  unfold handleQuotaOnDone. unfold_M. rewrite Hhttp.
  destruct (ConvertAllocateQuotaResponse _ _ _) as [qs info]. simpl.
  by rewrite collectScResponseErrorStats_run.
Qed.

Lemma collectScResponseErrorStats_set_network_fail_open
    (e : ScResponseErrorType) (b : bool) (this : ClientCache) :
  collectScResponseErrorStats (CheckD:=CheckD) (QuotaD:=QuotaD) e
    (set_network_fail_open_ b this) =
  (tt,
   set_network_fail_open_ b
     (object (collectScResponseErrorStats (CheckD:=CheckD) (QuotaD:=QuotaD)
                e this)),
   []).
Proof. by destruct e. Qed.

(** C6. A Quota call whose transport succeeded hands the caller the status
    and the response info of the domain conversion as they are, whether
    the status is a success or a denial.  A Quota call whose transport
    failed is recorded as a producer-side fault ([denied_producer_error]
    grows by one, the error of the response info is made from the transport
    status: the name of its code, a network error, of unspecified type)
    and the caller receives the transport status itself: this
    layer puts no decision of its own in its place.  The fail-open flag has
    no influence on a Quota call. *)
Theorem quota_pass_through
    (http_status : Status) (response : Response AllocateQuotaCall)
    (this : ClientCache) :
  let r := handleQuota http_status response this in
  let conv :=
    converted_quota ConvertAllocateQuotaResponse default_quota_info
      this response in
  (ok http_status = true →
     quota_done_calls (events r) = [conv] ∧
     filter_counter denied_producer_error (object r) =
       filter_counter denied_producer_error this) ∧
  (ok http_status = false →
     quota_done_calls (events r) =
       [(http_status,
         set_quota_error (failCallStatusToScResponseError http_status)
           default_quota_info)] ∧
     (∃ info,
        quota_done_calls (events r) = [(http_status, info)] ∧
        name (quota_error info) = StatusCodeToString (code http_status) ∧
        is_network_error (quota_error info) = true ∧
        type (quota_error info) = ERROR_TYPE_UNSPECIFIED ∧
        quota_domain info = quota_domain default_quota_info) ∧
     filter_counter denied_producer_error (object r) =
       filter_counter denied_producer_error this + 1 ∧
     ∀ c, c ≠ denied_producer_error →
       filter_counter c (object r) = filter_counter c this) ∧
  (∀ fail_open : bool,
     let r' :=
       handleQuota http_status response
         (set_network_fail_open_ fail_open this) in
     events r' = events r ∧
     filter_stats_ (object r') = filter_stats_ (object r) ∧
     network_fail_open_ (object r') = fail_open).
Proof.
  intros r conv. subst r conv. split; [|split].
  - intros Hhttp. rewrite handleQuota_ok_run by done. simpl.
    split; [by destruct (converted_quota _ _ _ _)|].
    by destruct (type _).
  - intros Hhttp. rewrite handleQuota_failed_run by done. simpl.
    split; [done|]. split; [by eexists|]. split.
    + by rewrite filter_counter_bump_eq.
    + intros c Hc. by rewrite filter_counter_bump_ne.
  - intros fail_open. simpl. destruct (ok http_status) eqn:Hhttp.
    + rewrite !handleQuota_ok_run by done. simpl.
      unfold converted_quota. simpl.
      rewrite collectScResponseErrorStats_set_network_fail_open. simpl.
      done.
    + rewrite !handleQuota_failed_run by done. done.
Qed.

(** ** The response decoder *)

Local Abbreviation processStatus :=
  (processScCallTransportStatus (CheckD:=CheckD) (QuotaD:=QuotaD)
     ParseFromString).

Lemma processStatus_failed_run (t : CallType) (status : Status)
    (resp : Response t) (body : string) (this : ClientCache) :
  ok status = false →
  processStatus t status resp body this =
  ((status, resp), this,
   [EnvoyLog log_error "Failed to call {}, error: {}, str body: {}"
      [ArgString (call_name t); ArgStatus status; ArgString body]]).
Proof.
  intros Hstatus. unfold processScCallTransportStatus. unfold_M.
  rewrite Hstatus. by destruct t.
Qed.

Lemma processStatus_parse_failure_run (t : CallType) (status : Status)
    (resp : Response t) (body : string) (this : ClientCache) :
  ok status = true → (ParseFromString t resp body).1 = false →
  processStatus t status resp body this =
  ((MkStatus kInvalidArgument "Invalid response",
    (ParseFromString t resp body).2), this,
   [EnvoyLog log_error "Failed to call {}, error: {}, str body: {}"
      [ArgString (call_name t); ArgString "invalid response";
       ArgString body]]).
Proof.
  intros Hstatus Hparse. unfold processScCallTransportStatus. unfold_M.
  rewrite Hstatus. destruct (ParseFromString t resp body) as [parsed resp'].
  simpl in *. rewrite Hparse. by destruct t.
Qed.

Lemma processStatus_parsed_run (t : CallType) (status : Status)
    (resp : Response t) (body : string) (this : ClientCache) :
  ok status = true → (ParseFromString t resp body).1 = true →
  processStatus t status resp body this =
  ((status, (ParseFromString t resp body).2), this, []).
Proof.
  intros Hstatus Hparse. unfold processScCallTransportStatus. unfold_M.
  rewrite Hstatus. destruct (ParseFromString t resp body) as [parsed resp'].
  simpl in *. by rewrite Hparse.
Qed.

(** C4. The decoder returns a failed transport status unchanged, without
    parsing the body: the response message is left as it was and no parser
    could make a difference.  When the transport status is ok and the body
    does not parse, it returns an InvalidArgument error.  When the body
    parses, it returns the transport status, which is ok, and the response
    message is the parsed one. *)
Theorem decoder_outcomes (t : CallType) (status : Status)
    (resp : Response t) (body : string) (this : ClientCache) :
  let r := processStatus t status resp body this in
  object r = this ∧
  (ok status = false →
     result r = (status, resp) ∧
     ∀ other_parser,
       processScCallTransportStatus (CheckD:=CheckD) (QuotaD:=QuotaD)
         other_parser t status resp body this = r) ∧
  (ok status = true → (ParseFromString t resp body).1 = false →
     code (result r).1 = kInvalidArgument ∧
     (result r).1 = MkStatus kInvalidArgument "Invalid response") ∧
  (ok status = true → (ParseFromString t resp body).1 = true →
     (result r).1 = status ∧ ok (result r).1 = true ∧
     (result r).2 = (ParseFromString t resp body).2).
Proof.
  intros r. subst r. split; [|split; [|split]].
  - destruct (ok status) eqn:Hstatus.
    + destruct (ParseFromString t resp body).1 eqn:Hparse.
      * by rewrite processStatus_parsed_run.
      * by rewrite processStatus_parse_failure_run.
    + by rewrite processStatus_failed_run.
  - intros Hstatus. rewrite processStatus_failed_run by done.
    split; [done|]. intros other_parser.
    unfold processScCallTransportStatus. unfold_M.
    rewrite Hstatus. by destruct t.
  - intros Hstatus Hparse. by rewrite processStatus_parse_failure_run.
  - intros Hstatus Hparse. by rewrite processStatus_parsed_run.
Qed.

(** ** Errors made from a transport failure *)

(** C5, as the code has it.  For a failed transport status other than
    Unavailable (a decode error is one), a Check call hands the caller a
    status with code Internal and the original message, and a Quota call
    hands the caller the transport status unchanged; in both the error of
    the response info is the one made from the transport status, which
    holds the name of the status code and nothing of the message. *)
Theorem operator_fault_status_and_error
    (http_status : Status) (check_response : Response CheckCall)
    (quota_response : Response AllocateQuotaCall) (this : ClientCache) :
  ok http_status = false → code http_status ≠ kUnavailable →
  (∃ info,
     check_done_calls (events (handleCheck http_status check_response this)) =
       [(MkStatus kInternal (message http_status), info)] ∧
     error info = failCallStatusToScResponseError http_status) ∧
  (∃ info,
     quota_done_calls (events (handleQuota http_status quota_response this)) =
       [(http_status, info)] ∧
     quota_error info = failCallStatusToScResponseError http_status) ∧
  failCallStatusToScResponseError http_status =
    MkScResponseError (StatusCodeToString (code http_status)) true
      ERROR_TYPE_UNSPECIFIED ∧
  (∀ other : Status,
     code other = code http_status →
     failCallStatusToScResponseError other =
     failCallStatusToScResponseError http_status) ∧
  (∀ t status resp body,
     ok status = true → (ParseFromString t resp body).1 = false →
     let decode_error :=
       (result (processStatus t status resp body this)).1 in
     decode_error = MkStatus kInvalidArgument "Invalid response" ∧
     ok decode_error = false ∧ code decode_error ≠ kUnavailable).
Proof.
  intros Hhttp Hcode. split; [|split; [|split; [done|split]]].
  - pose proof (handleCheck_failed_run _ check_response this Hhttp) as Hrun.
    simpl in Hrun. rewrite bool_decide_false in Hrun by done.
    destruct Hrun as (_ & Hcalls & _). eexists. split; [exact Hcalls|done].
  - rewrite handleQuota_failed_run by done. eexists. split; done.
  - intros other Hother. unfold failCallStatusToScResponseError.
    by rewrite Hother.
  - intros t status resp body Hstatus Hparse decode_error. subst decode_error.
    by rewrite processStatus_parse_failure_run.
Qed.

(** C10. The error made from a failed transport status is a network error
    of unspecified type.  It is the error of the response info on the three
    paths that synthesise one: the fail-closed Check path, the
    operator-fault Check path and the Quota failure path.  Its type is
    neither of the two that the api key classification tests, and no
    per-error-type denial counter moves for it or on any of these
    paths. *)
Theorem transport_failure_error_is_unspecified_network_error
    (http_status : Status) (check_response : Response CheckCall)
    (quota_response : Response AllocateQuotaCall) (this : ClientCache) :
  ok http_status = false →
  let e := failCallStatusToScResponseError http_status in
  let check_run := handleCheck http_status check_response this in
  let quota_run := handleQuota http_status quota_response this in
  is_network_error e = true ∧ type e = ERROR_TYPE_UNSPECIFIED ∧
  (code http_status = kUnavailable → network_fail_open_ this = false →
     error <$> (check_done_calls (events check_run)).*2 = [e]) ∧
  (code http_status ≠ kUnavailable →
     error <$> (check_done_calls (events check_run)).*2 = [e]) ∧
  quota_error <$> (quota_done_calls (events quota_run)).*2 = [e] ∧
  type e ≠ API_KEY_INVALID ∧ type e ≠ SERVICE_NOT_ACTIVATED ∧
  collectScResponseErrorStats (CheckD:=CheckD) (QuotaD:=QuotaD) (type e) this
    = (tt, this, []) ∧
  (∀ c, c = denied_consumer_blocked ∨ c = denied_consumer_error ∨
        c = denied_consumer_quota →
     filter_counter c (object check_run) = filter_counter c this ∧
     filter_counter c (object quota_run) = filter_counter c this).
Proof.
  intros Hhttp e check_run quota_run. subst e check_run quota_run.
  pose proof (handleCheck_failed_run _ check_response this Hhttp) as Hrun.
  simpl in Hrun.
  rewrite handleQuota_failed_run by done.
  split; [done|]. split; [done|]. split; [|split; [|split]].
  - intros Hcode Hclosed.
    rewrite bool_decide_true, Hclosed in Hrun by done.
    by destruct Hrun as (_ & -> & _).
  - intros Hcode. rewrite bool_decide_false in Hrun by done.
    by destruct Hrun as (_ & -> & _).
  - done.
  - split; [done|]. split; [done|]. split; [done|].
    intros c Hc. simpl. split.
    + destruct (bool_decide (code http_status = kUnavailable));
        [destruct (network_fail_open_ this)|];
        destruct Hrun as (-> & _);
        apply filter_counter_bump_ne; destruct Hc as [->| [->| ->]]; done.
    + apply filter_counter_bump_ne. destruct Hc as [->| [->| ->]]; done.
Qed.

(** ** Statistics *)

Local Abbreviation transportCallback :=
  (transport_callback (CheckD:=CheckD) (QuotaD:=QuotaD) ParseFromString).

Lemma transport_callback_run (t : CallType) (status : Status)
    (response : Response t) (body : string) (this : ClientCache) :
  let decoded := processStatus t status response body this in
  transportCallback t status response body this =
  ((result decoded).2,
   count_call t (code (result decoded).1) this,
   events decoded ++ [TransportDone t (result decoded).1]).
Proof.
  simpl. unfold transport_callback. unfold_M.
  unfold collectCallStatus, modify_this.
  destruct (ok status) eqn:Hstatus.
  - destruct (ParseFromString t response body).1 eqn:Hparse.
    + by rewrite processStatus_parsed_run.
    + by rewrite processStatus_parse_failure_run.
  - by rewrite processStatus_failed_run.
Qed.

Lemma transport_done_calls_app (evs1 evs2 : list (Event CheckD QuotaD)) :
  transport_done_calls (evs1 ++ evs2) =
  transport_done_calls evs1 ++ transport_done_calls evs2.
Proof. unfold transport_done_calls. apply omap_app. Qed.

Lemma processStatus_no_transport_done (t : CallType) (status : Status)
    (resp : Response t) (body : string) (this : ClientCache) :
  transport_done_calls (events (processStatus t status resp body this)) = [].
Proof.
  destruct (ok status) eqn:Hstatus.
  - destruct (ParseFromString t resp body).1 eqn:Hparse.
    + by rewrite processStatus_parsed_run.
    + by rewrite processStatus_parse_failure_run.
  - by rewrite processStatus_failed_run.
Qed.

Lemma call_stats_bump (t : CallType) (c : FilterCounter)
    (this : ClientCache) :
  call_stats t (filter_stats_ (bump c this)) = call_stats t (filter_stats_ this).
Proof. by destruct t. Qed.

Lemma call_stats_collect (t : CallType) (e : ScResponseErrorType)
    (this : ClientCache) :
  call_stats t
    (filter_stats_
       (object (collectScResponseErrorStats (CheckD:=CheckD) (QuotaD:=QuotaD)
                  e this))) =
  call_stats t (filter_stats_ this).
Proof.
  rewrite collectScResponseErrorStats_run. simpl.
  destruct e; first [ done | apply call_stats_bump ].
Qed.

(** The completion handlers never count a call status. *)
Lemma completion_handlers_keep_call_stats (t : CallType)
    (http_status : Status) (check_response : Response CheckCall)
    (quota_response : Response AllocateQuotaCall) (this : ClientCache) :
  call_stats t
    (filter_stats_ (object (handleCheck http_status check_response this))) =
    call_stats t (filter_stats_ this) ∧
  call_stats t
    (filter_stats_ (object (handleQuota http_status quota_response this))) =
    call_stats t (filter_stats_ this).
Proof.
  split.
  - destruct (ok http_status) eqn:Hhttp.
    + destruct (converted this check_response) as [fs info] eqn:Hconv.
      pose proof (handleCheck_ok_run _ _ _ _ _ Hhttp Hconv) as Hrun.
      simpl in Hrun.
      destruct (check_branch fs);
        [|destruct (network_fail_open_ this)|];
        destruct Hrun as (-> & _);
        first [ by rewrite call_stats_bump, call_stats_collect
              | by rewrite call_stats_collect ].
    + pose proof (handleCheck_failed_run _ check_response this Hhttp) as Hrun.
      simpl in Hrun.
      destruct (bool_decide (code http_status = kUnavailable));
        [destruct (network_fail_open_ this)|];
        destruct Hrun as (-> & _);
        by rewrite call_stats_bump.
  - destruct (ok http_status) eqn:Hhttp.
    + rewrite handleQuota_ok_run by done. simpl. apply call_stats_collect.
    + rewrite handleQuota_failed_run by done. simpl.
      apply (call_stats_bump t denied_producer_error).
Qed.

(** C9, as the code has it.  A completed transport call of type [t], the
    http call to the control service, hands exactly one final status on
    and increments exactly one call-status counter, the one of call type
    [t] and of the code of that final status.  The completion of a Check,
    of a Quota and of a Report itself increments no call-status counter:
    of a call that the aggregation client answers from its cache, no call
    status is counted.  A response error type that denotes a denial
    increments exactly one of the denial counters; for [CONSUMER_QUOTA]
    this is [denied_consumer_quota], after which control is in the default
    case, which increments nothing. *)
Theorem stats_one_counter_per_call (this : ClientCache) :
  (∀ (t : CallType) (status : Status) (response : Response t)
     (body : string),
     let r := transportCallback t status response body this in
     let final := (result (processStatus t status response body this)).1 in
     transport_done_calls (events r) = [(t, final)] ∧
     (∀ t' c',
        call_counter t' c' (filter_stats_ (object r)) =
        call_counter t' c' (filter_stats_ this)
        + if decide (t = t' ∧ code final = c') then 1 else 0) ∧
     (∀ c, filter_counter c (object r) = filter_counter c this)) ∧
  (∀ (t : CallType) (http_status : Status)
     (check_response : Response CheckCall)
     (quota_response : Response AllocateQuotaCall),
     call_stats t
       (filter_stats_
          (object (handleCheck http_status check_response this))) =
       call_stats t (filter_stats_ this) ∧
     call_stats t
       (filter_stats_
          (object (handleQuota http_status quota_response this))) =
       call_stats t (filter_stats_ this) ∧
     call_stats t
       (filter_stats_
          (callReport (CheckD:=CheckD) (QuotaD:=QuotaD) http_status this).1.2) =
       call_stats t (filter_stats_ this)) ∧
  (∀ e : ScResponseErrorType,
     let r := collectScResponseErrorStats (CheckD:=CheckD) (QuotaD:=QuotaD)
                e this in
     let denial :=
       match e with
       | CONSUMER_BLOCKED => Some denied_consumer_blocked
       | CONSUMER_ERROR | SERVICE_NOT_ACTIVATED | API_KEY_INVALID =>
           Some denied_consumer_error
       | CONSUMER_QUOTA => Some denied_consumer_quota
       | ERROR_TYPE_UNSPECIFIED => None
       end in
     events r = [] ∧
     ∀ c, filter_counter c (object r) =
          filter_counter c this + if decide (denial = Some c) then 1 else 0) ∧
  collectScResponseErrorStats (CheckD:=CheckD) (QuotaD:=QuotaD)
      CONSUMER_QUOTA =
    (inc denied_consumer_quota;; default_case) ∧
  default_case (CheckD:=CheckD) (QuotaD:=QuotaD) this = (tt, this, []) ∧
  object (collectScResponseErrorStats (CheckD:=CheckD) (QuotaD:=QuotaD)
            CONSUMER_QUOTA this) = bump denied_consumer_quota this.
Proof.
  split; [|split; [|split; [|done]]].
  - intros t status response body r final. subst r final.
    rewrite transport_callback_run. simpl. split; [|split].
    + rewrite transport_done_calls_app, processStatus_no_transport_done.
      done.
    + intros t' c'. apply call_counter_count_call.
    + intros c. apply filter_counter_count_call.
  - intros t http_status check_response quota_response.
    destruct (completion_handlers_keep_call_stats t http_status
                check_response quota_response this) as [Hcheck Hquota].
    by repeat split.
  - intros e r denial. subst r denial.
    rewrite collectScResponseErrorStats_run. simpl. split; [done|].
    intros c. destruct e; simpl;
      rewrite ?filter_counter_bump; try lia;
      repeat case_decide; simplify_eq; lia.
Qed.

(** ** Request settings *)

(** C8. Without an [sc_calling_config] the settings are the fixed
    defaults: Check 1000 ms and 3 retries, Quota 1000 ms and 1 retry,
    Report 2000 ms and 5 retries, network fail open true.  With one, each
    setting is the value of its field when the field is present and the
    same default when it is absent ([from_option f d] maps [Some v] to
    [f v] and [None] to [d]). *)
Theorem settings_defaults (filter_config : FilterConfig)
    (this : ClientCache) :
  let r := initHttpRequestSetting (CheckD:=CheckD) (QuotaD:=QuotaD)
             filter_config this in
  let this' := object r in
  events r = [] ∧
  config_ this' = config_ this ∧
  filter_stats_ this' = filter_stats_ this ∧
  match opt_sc_calling_config filter_config with
  | None =>
      network_fail_open_ this' = true ∧
      check_timeout_ms_ this' = 1000 ∧ check_retries_ this' = 3 ∧
      quota_timeout_ms_ this' = 1000 ∧ quota_retries_ this' = 1 ∧
      report_timeout_ms_ this' = 2000 ∧ report_retries_ this' = 5
  | Some cfg =>
      network_fail_open_ this' =
        from_option bool_value true (opt_network_fail_open cfg) ∧
      check_timeout_ms_ this' =
        from_option u32_value 1000 (opt_check_timeout_ms cfg) ∧
      check_retries_ this' =
        from_option u32_value 3 (opt_check_retries cfg) ∧
      quota_timeout_ms_ this' =
        from_option u32_value 1000 (opt_quota_timeout_ms cfg) ∧
      quota_retries_ this' =
        from_option u32_value 1 (opt_quota_retries cfg) ∧
      report_timeout_ms_ this' =
        from_option u32_value 2000 (opt_report_timeout_ms cfg) ∧
      report_retries_ this' =
        from_option u32_value 5 (opt_report_retries cfg)
  end.
Proof.
  unfold initHttpRequestSetting, has_sc_calling_config, sc_calling_config.
  destruct filter_config as [[cfg|] uri]; simpl.
  - destruct cfg as [[nfo|] [ct|] [qt|] [rt|] [cr|] [qr|] [rr|]]; done.
  - done.
Qed.

End Runs.

(** * The properties on the sample service *)

(** C1 at a transport that failed with Unavailable, fail closed. *)
Lemma check_unavailable_fail_open_fail_closed_witness :
  code (check_final_status Sample.ConvertCheckResponse
          Sample.default_check_info (Sample.cache false)
          Sample.upstream_down Sample.accepted) = kUnavailable ∧
  ∃ status info,
    check_done_calls
      (events (Sample.handleCheckResponse Sample.upstream_down
                 Sample.accepted (Sample.cache false))) = [(status, info)] ∧
    api_key_state info = NOT_CHECKED ∧
    status = MkStatus kUnavailable "upstream connect error" ∧
    error info =
      MkScResponseError "UNAVAILABLE" true ERROR_TYPE_UNSPECIFIED.
Proof.
  split; [reflexivity|].
  destruct (check_unavailable_fail_open_fail_closed (QuotaD:=string)
              Sample.ConvertCheckResponse Sample.default_check_info
              Sample.upstream_down Sample.accepted (Sample.cache false)
              eq_refl)
    as (status & info & Hcalls & Hkey & _ & _ & Hclosed).
  destruct (Hclosed eq_refl) as (Hstatus & _ & _ & _ & Herror).
  destruct (Herror eq_refl) as (_ & Hname & Hnetwork & Htype).
  exists status, info.
  split; [exact Hcalls|]. split; [exact Hkey|]. split; [exact Hstatus|].
  destruct (error info) as [n b t]. simpl in Hname, Hnetwork, Htype.
  rewrite Hname, Hnetwork, Htype. reflexivity.
Defined.




(** C4 at a successful transport whose body does not parse. *)
Lemma decoder_outcomes_witness :
  ok OkStatus = true ∧
  (Sample.ParseFromString CheckCall Sample.accepted "<html>").1 = false ∧
  code (result (processScCallTransportStatus (CheckD:=string)
                  (QuotaD:=string) Sample.ParseFromString CheckCall OkStatus
                  Sample.accepted "<html>" (Sample.cache true))).1
    = kInvalidArgument.
Proof.
  split; [reflexivity|]. split; [reflexivity|].
  destruct (decoder_outcomes (CheckD:=string) (QuotaD:=string)
              Sample.ParseFromString CheckCall OkStatus Sample.accepted
              "<html>" (Sample.cache true))
    as (_ & _ & Hmalformed & _).
  destruct (Hmalformed eq_refl eq_refl) as [Hcode _]. exact Hcode.
Defined.

(** C5, as the code has it, at a transport that failed with
    PermissionDenied. *)
Lemma operator_fault_status_and_error_witness :
  ok Sample.role_missing = false ∧
  code Sample.role_missing ≠ kUnavailable ∧
  Sample.check_caller_statuses Sample.role_missing =
    [MkStatus kInternal "service account lacks role"] ∧
  Sample.quota_caller_statuses Sample.role_missing = [Sample.role_missing] ∧
  failCallStatusToScResponseError Sample.role_missing =
    MkScResponseError "PERMISSION_DENIED" true ERROR_TYPE_UNSPECIFIED.
Proof.
  split; [reflexivity|]. split; [discriminate|].
  destruct (operator_fault_status_and_error (QuotaD:=string)
              Sample.ParseFromString Sample.ConvertCheckResponse
              Sample.ConvertAllocateQuotaResponse Sample.default_check_info
              Sample.default_quota_info Sample.role_missing Sample.accepted
              Sample.accepted (Sample.cache true) eq_refl
              ltac:(discriminate))
    as ((cinfo & Hcheck & _) & (qinfo & Hquota & _) & Herror & _).
  unfold Sample.check_caller_statuses, Sample.quota_caller_statuses.
  unfold Sample.handleCheckResponse, Sample.handleQuotaOnDone.
  rewrite Hcheck, Hquota. simpl.
  split; [reflexivity|]. split; [reflexivity|]. exact Herror.
Defined.

(** C5 as stated fails.  The Quota caller is handed the failed transport
    status as it is, code and message; the Check caller is handed the
    message under the code Internal; so neither status is independent of
    the internal text.  The error of the response info is the same for
    every message, so the message is not retained there. *)
Lemma operator_fault_detail_reaches_caller :
  Sample.quota_caller_statuses
    (MkStatus kPermissionDenied "service account lacks role") =
    [MkStatus kPermissionDenied "service account lacks role"] ∧
  Sample.quota_info_errors
    (MkStatus kPermissionDenied "service account lacks role") =
    [MkScResponseError "PERMISSION_DENIED" true ERROR_TYPE_UNSPECIFIED] ∧
  Sample.check_caller_statuses
    (MkStatus kPermissionDenied "service account lacks role") =
    [MkStatus kInternal "service account lacks role"] ∧
  ¬ text_independent Sample.quota_caller_statuses ∧
  ¬ text_independent Sample.check_caller_statuses ∧
  ¬ text_retained Sample.quota_info_errors ∧
  ¬ text_retained Sample.check_info_errors.
Proof.
  split; [reflexivity|]. split; [reflexivity|]. split; [reflexivity|].
  split; [|split; [|split]].
  - intros Hgeneric.
    specialize (Hgeneric kPermissionDenied "service account lacks role" "").
    discriminate Hgeneric; discriminate.
  - intros Hgeneric.
    specialize (Hgeneric kPermissionDenied "service account lacks role" "").
    discriminate Hgeneric; discriminate.
  - intros Hretained.
    specialize (Hretained kPermissionDenied "service account lacks role" "").
    discriminate Hretained; [discriminate | discriminate | reflexivity].
  - intros Hretained.
    specialize (Hretained kPermissionDenied "service account lacks role" "").
    discriminate Hretained; [discriminate | discriminate | reflexivity].
Qed.

(** C6 at a failed transport. *)
Lemma quota_pass_through_witness :
  ok Sample.role_missing = false ∧
  (∃ info,
     quota_done_calls
       (events (Sample.handleQuotaOnDone Sample.role_missing Sample.accepted
                  (Sample.cache true))) =
       [(MkStatus kPermissionDenied "service account lacks role", info)] ∧
     quota_error info =
       MkScResponseError "PERMISSION_DENIED" true ERROR_TYPE_UNSPECIFIED ∧
     quota_domain info = "") ∧
  filter_counter denied_producer_error
    (object (Sample.handleQuotaOnDone Sample.role_missing Sample.accepted
               (Sample.cache true))) = 1.
Proof.
  split; [reflexivity|].
  destruct (quota_pass_through (CheckD:=string)
              Sample.ConvertAllocateQuotaResponse Sample.default_quota_info
              Sample.role_missing Sample.accepted (Sample.cache true))
    as (_ & Hfailed & _).
  destruct (Hfailed eq_refl)
    as (_ & (info & Hcalls & Hname & Hnetwork & Htype & Hdomain)
        & Hcounter & _).
  split; [|exact Hcounter].
  exists info. split; [exact Hcalls|]. split; [|exact Hdomain].
  destruct (quota_error info) as [n b t]. simpl in Hname, Hnetwork, Htype.
  rewrite Hname, Hnetwork, Htype. reflexivity.
Defined.

(** C9 as stated fails: a completed call need not move a call-status
    counter.  A Quota call, which the aggregation client answers from its
    cache, invokes its completion callback once and leaves every counter
    of the object as it was, the call-status counters of Quota among them;
    so does the completion of a Check that was answered without a
    transport call, and that of a Report. *)
Lemma completion_without_transport_counts_no_call :
  quota_done_calls
    (handled_events
       (callQuota (CheckD:=string) Sample.ConvertAllocateQuotaResponse
          Sample.default_quota_info OkStatus Sample.accepted
          (Sample.cache true)).2) =
    [(OkStatus,
      MkQuotaResponseInfo
        (MkScResponseError "bookstore" false ERROR_TYPE_UNSPECIFIED)
        "project-1")] ∧
  allocate_quota_
    (filter_stats_
       (callQuota (CheckD:=string) Sample.ConvertAllocateQuotaResponse
          Sample.default_quota_info OkStatus Sample.accepted
          (Sample.cache true)).1.2) = ∅ ∧
  call_counter AllocateQuotaCall kOk
    (filter_stats_
       (callQuota (CheckD:=string) Sample.ConvertAllocateQuotaResponse
          Sample.default_quota_info OkStatus Sample.accepted
          (Sample.cache true)).1.2) = 0 ∧
  length
    (check_done_calls
       (events (Sample.handleCheckResponse OkStatus Sample.accepted
                  (Sample.cache true)))) = 1%nat ∧
  filter_stats_
    (object (Sample.handleCheckResponse OkStatus Sample.accepted
               (Sample.cache true))) = Sample.no_stats ∧
  filter_stats_
    (callReport (CheckD:=string) (QuotaD:=string) OkStatus
       (Sample.cache true)).1.2 = Sample.no_stats.
Proof. repeat split; reflexivity. Qed.

(** C10 at a transport that failed with Unavailable, fail closed. *)
Lemma transport_failure_error_is_unspecified_network_error_witness :
  ok Sample.upstream_down = false ∧
  error <$>
    (check_done_calls
       (events (Sample.handleCheckResponse Sample.upstream_down
                  Sample.accepted (Sample.cache false)))).*2 =
    [MkScResponseError "UNAVAILABLE" true ERROR_TYPE_UNSPECIFIED] ∧
  quota_error <$>
    (quota_done_calls
       (events (Sample.handleQuotaOnDone Sample.upstream_down
                  Sample.accepted (Sample.cache false)))).*2 =
    [MkScResponseError "UNAVAILABLE" true ERROR_TYPE_UNSPECIFIED].
Proof.
  split; [reflexivity|].
  destruct (transport_failure_error_is_unspecified_network_error
              Sample.ConvertCheckResponse Sample.ConvertAllocateQuotaResponse
              Sample.default_check_info Sample.default_quota_info
              Sample.upstream_down Sample.accepted Sample.accepted
              (Sample.cache false) eq_refl)
    as (_ & _ & Hclosed & _ & Hquota & _).
  split; [exact (Hclosed eq_refl eq_refl) | exact Hquota].
Defined.

(** ** The scenarios of the specification, run on the sample service *)

(** Scenario A: the transport succeeded and the service accepted. *)
Example scenario_transport_ok_service_ok :
  check_done_calls
    (events (Sample.handleCheckResponse OkStatus Sample.accepted
               (Sample.cache true))) =
  [(OkStatus,
    MkCheckResponseInfo
      (MkScResponseError "bookstore" false ERROR_TYPE_UNSPECIFIED)
      VERIFIED "project-1")].
Proof. reflexivity. Qed.

(** Scenario B: the transport failed with Unavailable, fail open. *)
Example scenario_unavailable_fail_open :
  check_done_calls
    (events (Sample.handleCheckResponse Sample.upstream_down Sample.accepted
               (Sample.cache true))) =
    [(OkStatus, MkCheckResponseInfo Sample.default_error NOT_CHECKED "")] ∧
  filter_counter allowed_control_plane_fault
    (object (Sample.handleCheckResponse Sample.upstream_down Sample.accepted
               (Sample.cache true))) = 1.
Proof. split; reflexivity. Qed.

(** Scenario C: the transport succeeded and the service rejected the api
    key. *)
Example scenario_api_key_invalid :
  check_done_calls
    (events (Sample.handleCheckResponse OkStatus Sample.key_rejected
               (Sample.cache true))) =
    [(MkStatus kInvalidArgument "API key not valid",
      MkCheckResponseInfo
        (MkScResponseError "bookstore" false API_KEY_INVALID)
        INVALID "project-1")] ∧
  filter_counter denied_consumer_error
    (object (Sample.handleCheckResponse OkStatus Sample.key_rejected
               (Sample.cache true))) = 1.
Proof. split; reflexivity. Qed.

(** Scenario D: the transport failed with a status other than
    Unavailable. *)
Example scenario_operator_fault :
  check_done_calls
    (events (Sample.handleCheckResponse Sample.token_rejected Sample.accepted
               (Sample.cache true))) =
    [(MkStatus kInternal "JWT signature mismatch",
      MkCheckResponseInfo
        (MkScResponseError "UNAUTHENTICATED" true ERROR_TYPE_UNSPECIFIED)
        NOT_CHECKED "")] ∧
  filter_counter denied_producer_error
    (object (Sample.handleCheckResponse Sample.token_rejected Sample.accepted
               (Sample.cache true))) = 1.
Proof. split; reflexivity. Qed.

(** A converted status that is Unavailable, after a successful transport,
    takes the Unavailable branch as well: with fail open the caller is
    handed an allow. *)
Example scenario_service_unavailable_fail_open :
  check_done_calls
    (events (Sample.handleCheckResponse OkStatus Sample.backend_unavailable
               (Sample.cache true))) =
  [(OkStatus,
    MkCheckResponseInfo
      (MkScResponseError "bookstore" false ERROR_TYPE_UNSPECIFIED)
      NOT_CHECKED "project-1")].
Proof. reflexivity. Qed.

(** A transport call of a Check whose body does not parse counts once, under
    InvalidArgument, and hands that status on. *)
Example scenario_malformed_body :
  transport_done_calls
    (events (Sample.transport_callback CheckCall OkStatus Sample.accepted
               "<html>" (Sample.cache true))) =
    [(CheckCall, MkStatus kInvalidArgument "Invalid response")] ∧
  call_counter CheckCall kInvalidArgument
    (filter_stats_
       (object (Sample.transport_callback CheckCall OkStatus Sample.accepted
                  "<html>" (Sample.cache true)))) = 1 ∧
  call_counter CheckCall kOk
    (filter_stats_
       (object (Sample.transport_callback CheckCall OkStatus Sample.accepted
                  "<html>" (Sample.cache true)))) = 0.
Proof. repeat split; reflexivity. Qed.

(** * Further properties of the translation unit *)

(** ** Counters only grow *)

Lemma only_counters_grow_refl (this : ClientCache) :
  only_counters_grow this this.
Proof.
  exists (filter_ (filter_stats_ this)). split; [|intros; lia].
  by destruct this as [? [] ? ? ? ? ? ? ?].
Qed.

Lemma only_counters_grow_bump (c : FilterCounter) (this this' : ClientCache) :
  only_counters_grow this this' → only_counters_grow this (bump c this').
Proof.
  intros (fs & -> & Hle). exists (inc_counter c fs). split; [done|].
  intros c'. rewrite counter_inc_counter. specialize (Hle c').
  destruct (decide (c = c')); lia.
Qed.

Section MoreRuns.
Context {CheckD QuotaD : Type}.
Context {Response : CallType → Type}.
Context (ParseFromString : ∀ t, Response t → string → bool * Response t).
Context (ConvertCheckResponse :
  Response CheckCall → string → CheckResponseInfo CheckD →
  Status * CheckResponseInfo CheckD).
Context (ConvertAllocateQuotaResponse :
  Response AllocateQuotaCall → string → QuotaResponseInfo QuotaD →
  Status * QuotaResponseInfo QuotaD).
Context (default_check_info : CheckResponseInfo CheckD).
Context (default_quota_info : QuotaResponseInfo QuotaD).

Local Abbreviation M := (M CheckD QuotaD).
Local Abbreviation handleCheck :=
  (handleCheckResponse (QuotaD:=QuotaD) ConvertCheckResponse default_check_info).
Local Abbreviation handleQuota :=
  (handleQuotaOnDone (CheckD:=CheckD) ConvertAllocateQuotaResponse
     default_quota_info).
Local Abbreviation converted :=
  (converted_check ConvertCheckResponse default_check_info).
Local Abbreviation final_status :=
  (check_final_status ConvertCheckResponse default_check_info).
Local Abbreviation initial_info :=
  (check_initial_info ConvertCheckResponse default_check_info).
Local Abbreviation processStatus :=
  (processScCallTransportStatus (CheckD:=CheckD) (QuotaD:=QuotaD)
     ParseFromString).
Local Abbreviation collectStats :=
  (collectScResponseErrorStats (CheckD:=CheckD) (QuotaD:=QuotaD)).

Local Abbreviation check_ok_run :=
  (handleCheck_ok_run (QuotaD:=QuotaD) ConvertCheckResponse default_check_info).
Local Abbreviation check_failed_run :=
  (handleCheck_failed_run (QuotaD:=QuotaD) ConvertCheckResponse
     default_check_info).

Ltac unfold_M :=
  unfold mbind, M_bind, mret, M_ret, emit, get_this, modify_this,
    assign_api_key_state, ENVOY_LOG, inc.

Lemma only_counters_grow_collect (e : ScResponseErrorType)
    (this this' : ClientCache) :
  only_counters_grow this this' →
  only_counters_grow this (object (collectStats e this')).
Proof.
  intros H. rewrite collectScResponseErrorStats_run. simpl.
  destruct e; auto using only_counters_grow_bump.
Qed.

(** The whole run of [handleCheckResponse], event by event. *)
Lemma handleCheck_events (http_status : Status)
    (response : Response CheckCall) (this : ClientCache) :
  let r := handleCheck http_status response this in
  ∃ key logs status info,
    events r =
      ApiKeyStateAssigned key :: logs ++
      [CheckDone status info; ResponseDeleted CheckCall] ∧
    api_key_state info = key ∧
    (logs = [] ∨ ∃ fmt args, logs = [EnvoyLog log_warn fmt args]).
Proof.
  simpl. unfold handleCheckResponse. unfold_M.
  destruct (ok http_status) eqn:Hhttp; simpl.
  - destruct (ConvertCheckResponse _ _ _) as [fs info] eqn:Hconv. simpl.
    rewrite collectScResponseErrorStats_run. simpl.
    destruct (ok fs); simpl.
    { eexists _, [], _, _. split; [reflexivity|]. split; [done|by left]. }
    destruct (bool_decide (code fs = kUnavailable)); simpl.
    + rewrite ?Hhttp. simpl.
      match goal with |- context [network_fail_open_ ?t] =>
        destruct (network_fail_open_ t) end; simpl.
      * eexists _, [_], _, _. split; [reflexivity|]. split; [done|]. right. eauto.
      * eexists _, [_], _, _. split; [reflexivity|]. split; [done|]. right. eauto.
    + rewrite ?Hhttp. simpl.
      destruct (bool_decide (type (error info) = API_KEY_INVALID)); simpl.
      { eexists _, [], _, _. split; [reflexivity|]. split; [done|by left]. }
      destruct (bool_decide (type (error info) = SERVICE_NOT_ACTIVATED));
        simpl; eexists _, [], _, _; (split; [reflexivity|]); (split; [done|by left]).
  - rewrite Hhttp.
    destruct (bool_decide (code http_status = kUnavailable)); simpl.
    + rewrite ?Hhttp. destruct (network_fail_open_ this); simpl.
      * eexists _, [_], _, _. split; [reflexivity|]. split; [done|]. right. eauto.
      * eexists _, [_], _, _. split; [reflexivity|]. split; [done|]. right. eauto.
    + rewrite ?Hhttp. simpl.
      eexists _, [], _, _. split; [reflexivity|]. split; [done|by left].
Qed.

(** X1. The completion handlers of Check and of Quota change nothing of
    the object but the counters of [filter_stats_.filter_], and never
    decrease one: the settings, the configuration and the call-status
    counters are as they were. *)
Theorem completion_handlers_only_grow_counters
    (http_status : Status) (check_response : Response CheckCall)
    (quota_response : Response AllocateQuotaCall) (this : ClientCache) :
  only_counters_grow this
    (object (handleCheck http_status check_response this)) ∧
  only_counters_grow this
    (object (handleQuota http_status quota_response this)).
Proof.
  split.
  - destruct (ok http_status) eqn:Hhttp.
    + destruct (converted this check_response) as [fs info] eqn:Hconv.
      pose proof (check_ok_run _ _ _ _ _ Hhttp Hconv) as Hrun.
      simpl in Hrun.
      pose proof (only_counters_grow_collect (type (error info)) this this
                    (only_counters_grow_refl this)) as Hgrow.
      destruct (check_branch fs);
        [|destruct (network_fail_open_ this)|];
        destruct Hrun as (-> & _);
        auto using only_counters_grow_bump.
    + pose proof (check_failed_run _ check_response this Hhttp) as Hrun.
      simpl in Hrun.
      destruct (bool_decide (code http_status = kUnavailable));
        [destruct (network_fail_open_ this)|];
        destruct Hrun as (-> & _);
        auto using only_counters_grow_bump, only_counters_grow_refl.
  - destruct (ok http_status) eqn:Hhttp.
    + rewrite handleQuota_ok_run by done. simpl.
      apply only_counters_grow_collect, only_counters_grow_refl.
    + rewrite handleQuota_failed_run by done. simpl.
      apply only_counters_grow_bump, only_counters_grow_refl.
Qed.

(** X2. The Check callback is handed an allow exactly when the final
    status is OK, or the final status is Unavailable and network fail open
    is set.  With fail closed, only an OK final status allows. *)
Theorem check_allows_iff
    (http_status : Status) (response : Response CheckCall)
    (this : ClientCache) :
  let r := handleCheck http_status response this in
  let fs := final_status this http_status response in
  ∃ status info,
    check_done_calls (events r) = [(status, info)] ∧
    (decision status = Allow ↔
       code fs = kOk ∨
       (code fs = kUnavailable ∧ network_fail_open_ this = true)) ∧
    (decision status = Allow → status = OkStatus ∨ status = fs).
Proof.
  simpl. unfold check_final_status.
  destruct (ok http_status) eqn:Hhttp.
  - destruct (converted this response) as [fs info] eqn:Hconv. simpl.
    pose proof (check_ok_run _ _ _ _ _ Hhttp Hconv) as Hrun.
    simpl in Hrun. unfold check_branch in Hrun.
    destruct (ok fs) eqn:Hfs.
    + destruct Hrun as (_ & -> & _). eexists _, _. split; [done|].
      rewrite decision_allow. apply ok_true in Hfs. split; [|auto].
      split; [auto|by rewrite ok_true].
    + apply ok_false in Hfs.
      destruct (bool_decide (code fs = kUnavailable)) eqn:Hun.
      * apply bool_decide_eq_true in Hun.
        destruct (network_fail_open_ this);
          destruct Hrun as (_ & -> & _); eexists _, _;
          (split; [done|]); rewrite decision_allow, ok_true;
          (split; [|auto]).
        -- split; [auto|done].
        -- split; [done|]. intros [?|[? ?]]; done.
      * apply bool_decide_eq_false in Hun.
        destruct Hrun as (_ & -> & _). eexists _, _. split; [done|].
        rewrite decision_allow, ok_true. split; [|auto].
        split; [done|]. intros [?|[? ?]]; done.
  - pose proof (check_failed_run _ response this Hhttp) as Hrun.
    simpl in Hrun. apply ok_false in Hhttp.
    destruct (bool_decide (code http_status = kUnavailable)) eqn:Hun.
    + apply bool_decide_eq_true in Hun.
      destruct (network_fail_open_ this);
        destruct Hrun as (_ & -> & _); eexists _, _;
        (split; [done|]); rewrite decision_allow, ok_true;
        (split; [|auto]).
      * split; [auto|done].
      * split; [done|]. intros [?|[? ?]]; done.
    + apply bool_decide_eq_false in Hun.
      destruct Hrun as (_ & -> & _). eexists _, _. split; [done|].
      rewrite decision_allow, ok_true. simpl. split.
      * split; [done|]. intros [?|[? ?]]; done.
      * done.
Qed.

(** X3. The response info the Check callback is handed carries the domain
    fields of the info the branching started from.  After a successful
    transport its error is the one the conversion set; after a failed
    transport that fail open lets through, its error is the one of the
    default-constructed info. *)
Theorem check_info_is_kept
    (http_status : Status) (response : Response CheckCall)
    (this : ClientCache) :
  let r := handleCheck http_status response this in
  let info0 := initial_info this http_status response in
  ∃ status info,
    check_done_calls (events r) = [(status, info)] ∧
    check_domain info = check_domain info0 ∧
    (ok http_status = true → error info = error info0) ∧
    (ok http_status = false → decision status = Allow →
       error info = error default_check_info) ∧
    (ok http_status = false → decision status = Deny →
       error info = failCallStatusToScResponseError http_status).
Proof.
  simpl. unfold check_initial_info.
  destruct (ok http_status) eqn:Hhttp.
  - destruct (converted this response) as [fs info] eqn:Hconv. simpl.
    pose proof (check_ok_run _ _ _ _ _ Hhttp Hconv) as Hrun.
    simpl in Hrun.
    destruct (check_branch fs);
      [|destruct (network_fail_open_ this)|];
      destruct Hrun as (_ & -> & _); eexists _, _; by repeat split.
  - pose proof (check_failed_run _ response this Hhttp) as Hrun.
    simpl in Hrun.
    destruct (bool_decide (code http_status = kUnavailable));
      [destruct (network_fail_open_ this)|];
      destruct Hrun as (_ & -> & _); eexists _, _;
      (split; [done|]); (split; [done|]); (split; [done|]);
      split; try done.
    all: intros _ Hd;
      first [ by apply decision_allow in Hd; rewrite Hhttp in Hd
            | by apply decision_deny in Hd
            | by cbv in Hd ].
Qed.

(** ** The lifetime of the response *)

Lemma check_done_calls_app (evs1 evs2 : list (Event CheckD QuotaD)) :
  check_done_calls (evs1 ++ evs2) =
  check_done_calls evs1 ++ check_done_calls evs2.
Proof. unfold check_done_calls. apply omap_app. Qed.

(** X4. A completion handler deletes the response exactly once, as the
    last thing it does, after the one invocation of the completion
    callback.  The completion of a Report deletes the response and does
    nothing else, whatever the status. *)
Theorem completion_deletes_response_last
    (http_status : Status) (check_response : Response CheckCall)
    (quota_response : Response AllocateQuotaCall) (this : ClientCache) :
  (∃ before status info,
     events (handleCheck http_status check_response this) =
       before ++ [CheckDone status info; ResponseDeleted CheckCall] ∧
     check_done_calls before = [] ∧ deleted_responses before = []) ∧
  (∃ status info,
     events (handleQuota http_status quota_response this) =
       [QuotaDone status info; ResponseDeleted AllocateQuotaCall]) ∧
  callReport (CheckD:=CheckD) (QuotaD:=QuotaD) http_status this =
    (tt, this,
     [ResponseAllocated ReportCall; Handled (ResponseDeleted ReportCall)]).
Proof.
  split; [|split; [|done]].
  - destruct (handleCheck_events http_status check_response this)
      as (key & logs & status & info & Hevents & _ & Hlogs).
    exists (ApiKeyStateAssigned key :: logs), status, info.
    split; [by rewrite Hevents|].
    by destruct Hlogs as [->|(fmt & args & ->)].
  - destruct (ok http_status) eqn:Hhttp.
    + rewrite handleQuota_ok_run by done. simpl. eauto.
    + rewrite handleQuota_failed_run by done. simpl. eauto.
Qed.

(** X17. [handleCheckResponse] writes a log line exactly when the final
    status is Unavailable: one line, at level warn, with the message of the
    final status as its argument.  A deny for any other reason is not
    logged here. *)
Theorem check_logs_only_unavailable
    (http_status : Status) (response : Response CheckCall)
    (this : ClientCache) :
  let r := handleCheck http_status response this in
  let fs := final_status this http_status response in
  log_levels (events r) =
    (if decide (code fs = kUnavailable) then [log_warn] else []) ∧
  (code fs = kUnavailable →
     ∃ fmt, EnvoyLog log_warn fmt [ArgString (message fs)] ∈ events r).
Proof.
  simpl. unfold check_final_status, handleCheckResponse. unfold_M.
  destruct (ok http_status) eqn:Hhttp; simpl.
  - unfold converted_check.
    destruct (ConvertCheckResponse _ _ _) as [fs info] eqn:Hconv. simpl.
    rewrite collectScResponseErrorStats_run. simpl.
    destruct (ok fs) eqn:Hfs; simpl.
    { apply ok_true in Hfs. rewrite decide_False by (by rewrite Hfs).
      split; [done|]. intros Hun. by rewrite Hun in Hfs. }
    destruct (bool_decide (code fs = kUnavailable)) eqn:Hun; simpl.
    + apply bool_decide_eq_true in Hun. rewrite decide_True by done.
      rewrite ?Hhttp. simpl.
      match goal with |- context [network_fail_open_ ?t] =>
        destruct (network_fail_open_ t) end; simpl;
        (split; [done|]); intros _; eexists;
        apply list_elem_of_In; simpl; eauto.
    + apply bool_decide_eq_false in Hun. rewrite decide_False by done.
      rewrite ?Hhttp. simpl.
      destruct (bool_decide (type (error info) = API_KEY_INVALID)); simpl;
        [done|].
      by destruct (bool_decide (type (error info) = SERVICE_NOT_ACTIVATED)).
  - rewrite Hhttp.
    destruct (bool_decide (code http_status = kUnavailable)) eqn:Hun; simpl.
    + apply bool_decide_eq_true in Hun. rewrite decide_True by done.
      rewrite ?Hhttp. destruct (network_fail_open_ this); simpl;
        (split; [done|]); intros _; eexists;
        apply list_elem_of_In; simpl; eauto.
    + apply bool_decide_eq_false in Hun. rewrite decide_False by done.
      rewrite ?Hhttp. done.
Qed.

(** ** Counting *)

Lemma fault_count_bump (c : FilterCounter) (this : ClientCache) :
  fault_count (bump c this) =
  fault_count this +
  match c with
  | allowed_control_plane_fault | denied_control_plane_fault
  | denied_producer_error => 1
  | _ => 0
  end.
Proof.
  unfold fault_count. rewrite !filter_counter_bump.
  destruct c; repeat case_decide; simplify_eq; lia.
Qed.

Lemma denial_count_bump (c : FilterCounter) (this : ClientCache) :
  denial_count (bump c this) =
  denial_count this +
  match c with
  | denied_consumer_blocked | denied_consumer_error
  | denied_consumer_quota => 1
  | _ => 0
  end.
Proof.
  unfold denial_count. rewrite !filter_counter_bump.
  destruct c; repeat case_decide; simplify_eq; lia.
Qed.

Lemma counts_collect (e : ScResponseErrorType) (this : ClientCache) :
  fault_count (object (collectStats e this)) = fault_count this ∧
  denial_count (object (collectStats e this)) =
    denial_count this + if decide (e = ERROR_TYPE_UNSPECIFIED) then 0 else 1.
Proof.
  rewrite collectScResponseErrorStats_run. simpl.
  destruct e; rewrite ?fault_count_bump, ?denial_count_bump; simpl;
    split; lia.
Qed.

(** X5. A Check completion moves at most two counters.  One of the three
    fault counters grows by one exactly when the final status is
    Unavailable, or is another failure of the transport; one of the three
    consumer denial counters grows by one exactly when the transport
    succeeded and the conversion reported an error type.  A Quota
    completion moves exactly one counter, unless the transport succeeded
    and the conversion reported no error type. *)
Theorem completion_counts
    (http_status : Status) (check_response : Response CheckCall)
    (quota_response : Response AllocateQuotaCall) (this : ClientCache) :
  let check_run := handleCheck http_status check_response this in
  let quota_run := handleQuota http_status quota_response this in
  let fs := final_status this http_status check_response in
  let check_type :=
    type (error (initial_info this http_status check_response)) in
  let quota_type :=
    type (quota_error
            (converted_quota ConvertAllocateQuotaResponse default_quota_info
               this quota_response).2) in
  fault_count (object check_run) =
    fault_count this +
    (if decide (code fs = kOk) then 0
     else if decide (code fs = kUnavailable) then 1
     else if ok http_status then 0 else 1) ∧
  denial_count (object check_run) =
    denial_count this +
    (if ok http_status
     then if decide (check_type = ERROR_TYPE_UNSPECIFIED) then 0 else 1
     else 0) ∧
  fault_count (object quota_run) =
    fault_count this + (if ok http_status then 0 else 1) ∧
  denial_count (object quota_run) =
    denial_count this +
    (if ok http_status
     then if decide (quota_type = ERROR_TYPE_UNSPECIFIED) then 0 else 1
     else 0).
Proof.
  simpl. unfold check_final_status, check_initial_info.
  destruct (ok http_status) eqn:Hhttp.
  - destruct (converted this check_response) as [fs info] eqn:Hconv. simpl.
    pose proof (check_ok_run _ _ _ _ _ Hhttp Hconv) as Hrun.
    simpl in Hrun. unfold check_branch in Hrun.
    destruct (counts_collect (type (error info)) this) as [Hf Hd].
    rewrite handleQuota_ok_run by done. simpl.
    destruct (counts_collect
                (type (quota_error
                   (converted_quota ConvertAllocateQuotaResponse
                      default_quota_info this quota_response).2)) this)
      as [Hqf Hqd].
    rewrite Hqf, Hqd.
    destruct (ok fs) eqn:Hfs.
    + apply ok_true in Hfs. destruct Hrun as (-> & _).
      rewrite decide_True by done. rewrite Hf, Hd. repeat split; lia.
    + apply ok_false in Hfs. rewrite decide_False by done.
      destruct (bool_decide (code fs = kUnavailable)) eqn:Hun.
      * apply bool_decide_eq_true in Hun. rewrite decide_True by done.
        destruct (network_fail_open_ this); destruct Hrun as (-> & _);
          rewrite fault_count_bump, denial_count_bump, Hf, Hd;
          repeat split; lia.
      * apply bool_decide_eq_false in Hun. rewrite decide_False by done.
        destruct Hrun as (-> & _). rewrite Hf, Hd. repeat split; lia.
  - pose proof (check_failed_run _ check_response this Hhttp) as Hrun.
    simpl in Hrun. rewrite handleQuota_failed_run by done. simpl.
    apply ok_false in Hhttp. rewrite decide_False by done.
    destruct (bool_decide (code http_status = kUnavailable)) eqn:Hun.
    + apply bool_decide_eq_true in Hun. rewrite decide_True by done.
      destruct (network_fail_open_ this); destruct Hrun as (-> & _);
        rewrite !fault_count_bump, !denial_count_bump; repeat split; lia.
    + apply bool_decide_eq_false in Hun. rewrite decide_False by done.
      destruct Hrun as (-> & _).
      rewrite !fault_count_bump, !denial_count_bump; repeat split; lia.
Qed.

(** X6. The error statistics of any sequence of responses: the consumer
    denial counters grow, together, by the number of responses that carry
    an error type, and no fault counter moves. *)
Theorem collect_all_counts (es : list ScResponseErrorType)
    (this : ClientCache) :
  let r := collect_all (CheckD:=CheckD) (QuotaD:=QuotaD) es this in
  denial_count (object r) =
    denial_count this
    + N.of_nat (length (filter (λ e, e ≠ ERROR_TYPE_UNSPECIFIED) es)) ∧
  fault_count (object r) = fault_count this ∧
  events r = [].
Proof.
  simpl. revert this. induction es as [|e es IH]; intros this.
  - simpl. repeat split; lia.
  - simpl. unfold mbind, M_bind.
    rewrite collectScResponseErrorStats_run.
    destruct (counts_collect e this) as [Hf Hd].
    rewrite collectScResponseErrorStats_run in Hf, Hd. simpl in Hf, Hd.
    match goal with |- context [collect_all es ?t] =>
      destruct (IH t) as (IHd & IHf & IHe);
      destruct (collect_all es t) as [[[] this'] evs] eqn:Hrun
    end.
    simpl in *. rewrite IHd, IHf, Hf, Hd, IHe.
    rewrite filter_cons. destruct (decide (e = ERROR_TYPE_UNSPECIFIED)).
    + rewrite decide_False by auto. repeat split; lia.
    + rewrite decide_True by auto. simpl. repeat split; lia.
Qed.

(** ** The decoder and the decision *)

(** X7. The decoder returns an OK status exactly when the transport status
    was ok and the body parsed, and an Unavailable status exactly when the
    transport status was Unavailable: decoding never makes a failure a
    success, and never makes a call look unavailable.  It logs one error
    line when the status it returns is not ok and nothing otherwise. *)
Theorem decoder_final_status (t : CallType) (status : Status)
    (resp : Response t) (body : string) (this : ClientCache) :
  let r := processStatus t status resp body this in
  let final := (result r).1 in
  (ok final = true ↔
     ok status = true ∧ (ParseFromString t resp body).1 = true) ∧
  (code final = kUnavailable ↔ code status = kUnavailable) ∧
  (final = status ∨ final = MkStatus kInvalidArgument "Invalid response") ∧
  log_levels (events r) = (if ok final then [] else [log_error]) ∧
  length (events r) = length (log_levels (events r)).
Proof.
  simpl. destruct (ok status) eqn:Hstatus.
  - destruct (ParseFromString t resp body).1 eqn:Hparse.
    + rewrite processStatus_parsed_run by done. simpl. rewrite Hstatus.
      by repeat split; auto.
    + rewrite processStatus_parse_failure_run by done. simpl.
      apply ok_true in Hstatus.
      repeat split; auto; try done; try (by intros [? ?]).
      intros Hun. by rewrite Hun in Hstatus.
  - rewrite processStatus_failed_run by done. simpl. rewrite Hstatus.
    repeat split; auto; try done; by intros [? ?].
Qed.

(** X8. A body that does not parse is never let through: applied to the
    status and the response that the decoder returns for it,
    [handleCheckResponse] hands the caller a deny with code Internal, with
    [api_key_state] [NOT_CHECKED], on whatever object and so whether or not
    network fail open is set. *)
Theorem malformed_body_is_denied (status : Status)
    (resp : Response CheckCall) (body : string) (this this' : ClientCache) :
  ok status = true →
  (ParseFromString CheckCall resp body).1 = false →
  let decoded := result (processStatus CheckCall status resp body this) in
  let r := handleCheck decoded.1 decoded.2 this' in
  check_done_calls (events r) =
    [(MkStatus kInternal "Invalid response",
      MkCheckResponseInfo
        (MkScResponseError "INVALID_ARGUMENT" true ERROR_TYPE_UNSPECIFIED)
        NOT_CHECKED (check_domain default_check_info))] ∧
  filter_counter denied_producer_error (object r) =
    filter_counter denied_producer_error this' + 1 ∧
  filter_counter allowed_control_plane_fault (object r) =
    filter_counter allowed_control_plane_fault this'.
Proof.
  intros Hstatus Hparse. simpl.
  rewrite processStatus_parse_failure_run by done. simpl.
  split; [done|].
  by rewrite filter_counter_bump_eq, filter_counter_bump_ne.
Qed.

(** X9. The error made from a failed transport status determines the code
    of the status, and nothing else of it: two statuses give the same
    error exactly when they have the same code. *)
Theorem transport_error_determines_code (s1 s2 : Status) :
  failCallStatusToScResponseError s1 = failCallStatusToScResponseError s2 ↔
  code s1 = code s2.
Proof.
  unfold failCallStatusToScResponseError. split.
  - intros H. injection H as H.
    destruct (code s1), (code s2); try done; discriminate H.
  - by intros ->.
Qed.

(** ** Settings and construction *)

Local Abbreviation initSettings :=
  (initHttpRequestSetting (CheckD:=CheckD) (QuotaD:=QuotaD)).

(** X10. The seven settings come from the configuration alone:
    [initHttpRequestSetting] overwrites every one of them, whatever they
    held, so running it again changes nothing; and an [sc_calling_config]
    that is present with no field set gives the settings of an absent
    one. *)
Theorem settings_come_from_the_configuration
    (filter_config : FilterConfig) (this other : ClientCache) :
  let this' := object (initSettings filter_config this) in
  this' =
    object (initSettings filter_config
              (member_initializers (config_ this) (filter_stats_ this) other)) ∧
  object (initSettings filter_config this') = this' ∧
  object (initSettings
            {| opt_sc_calling_config := Some empty_calling_config;
               service_control_uri := service_control_uri filter_config |}
            this) =
  object (initSettings
            {| opt_sc_calling_config := None;
               service_control_uri := service_control_uri filter_config |}
            this).
Proof.
  unfold initHttpRequestSetting, has_sc_calling_config, sc_calling_config.
  destruct filter_config as [[cfg|] uri]; simpl.
  - destruct cfg as [[nfo|] [ct|] [qt|] [rt|] [cr|] [qr|] [rr|]]; done.
  - done.
Qed.

(** X11. Network fail open is off only when the configuration says so: the
    flag is false after [initHttpRequestSetting] exactly when an
    [sc_calling_config] is present whose [network_fail_open] field is
    present and false. *)
Theorem fail_closed_needs_explicit_setting
    (filter_config : FilterConfig) (this : ClientCache) :
  network_fail_open_ (object (initSettings filter_config this)) = false ↔
  ∃ cfg,
    opt_sc_calling_config filter_config = Some cfg ∧
    opt_network_fail_open cfg = Some {| bool_value := false |}.
Proof.
  unfold initHttpRequestSetting, has_sc_calling_config, sc_calling_config.
  destruct filter_config as [[cfg|] uri]; simpl.
  - destruct cfg as [[[[]]|] ct qt rt cr qr rr]; simpl; split.
    + done.
    + intros (cfg & [= <-] & [=]).
    + intros _. eexists. split; [done|]. done.
    + done.
    + done.
    + intros (cfg & [= <-] & [=]).
  - split; [done|]. intros (cfg & [=] & _).
Qed.

Local Abbreviation newClientCache :=
  (ClientCache_new (CheckD:=CheckD) (QuotaD:=QuotaD)).

(** X12. The constructor reads none of the members it has not initialised,
    keeps the configuration and the statistics it was given, and hands
    each call factory the timeout and the retry count of its own call
    type, as configured or by default; Check and Report calls share the
    one token supplier and Quota calls use the other. *)
Theorem constructor_wires_the_factories
    (config : Service) (filter_config : FilterConfig)
    (created_stats : ServiceControlFilterStats)
    (uninitialised uninitialised' : ClientCache) :
  let r := newClientCache config filter_config created_stats uninitialised in
  let made := result r in
  let this := object r in
  let cfg := sc_calling_config filter_config in
  r = newClientCache config filter_config created_stats uninitialised' ∧
  config_ this = config ∧ filter_stats_ this = created_stats ∧
  events r = [] ∧
  (factory_timeout_ms (check_call_factory_ made),
   factory_retries (check_call_factory_ made)) =
    (check_timeout_ms_ this, check_retries_ this) ∧
  (factory_timeout_ms (quota_call_factory_ made),
   factory_retries (quota_call_factory_ made)) =
    (quota_timeout_ms_ this, quota_retries_ this) ∧
  (factory_timeout_ms (report_call_factory_ made),
   factory_retries (report_call_factory_ made)) =
    (report_timeout_ms_ this, report_retries_ this) ∧
  (check_timeout_ms_ this, check_retries_ this) =
    (from_option u32_value 1000 (opt_check_timeout_ms cfg),
     from_option u32_value 3 (opt_check_retries cfg)) ∧
  (quota_timeout_ms_ this, quota_retries_ this) =
    (from_option u32_value 1000 (opt_quota_timeout_ms cfg),
     from_option u32_value 1 (opt_quota_retries cfg)) ∧
  (report_timeout_ms_ this, report_retries_ this) =
    (from_option u32_value 2000 (opt_report_timeout_ms cfg),
     from_option u32_value 5 (opt_report_retries cfg)) ∧
  factory_token_fn (check_call_factory_ made) = sc_token_fn ∧
  factory_token_fn (report_call_factory_ made) = sc_token_fn ∧
  factory_token_fn (quota_call_factory_ made) = quota_token_fn.
Proof.
  unfold ClientCache_new, ClientCache_body, initHttpRequestSetting,
    has_sc_calling_config, sc_calling_config.
  unfold_M.
  destruct filter_config as [[cfg|] uri]; simpl.
  - destruct cfg as [[nfo|] [ct|] [qt|] [rt|] [cr|] [qr|] [rr|]]; done.
  - done.
Qed.

(** X13. The three call factories are given the same service control URI
    and three different paths, each made of the service name: a Check, a
    Quota and a Report call of one service never share an endpoint. *)
Theorem call_paths_are_distinct
    (config : Service) (filter_config : FilterConfig)
    (created_stats : ServiceControlFilterStats)
    (uninitialised : ClientCache) :
  let made :=
    result (newClientCache config filter_config created_stats
              uninitialised) in
  let check_path := factory_suffix_url (check_call_factory_ made) in
  let quota_path := factory_suffix_url (quota_call_factory_ made) in
  let report_path := factory_suffix_url (report_call_factory_ made) in
  check_path ≠ quota_path ∧ check_path ≠ report_path ∧
  quota_path ≠ report_path ∧
  check_path = "/" +:+ service_name config +:+ ":check" ∧
  quota_path = "/" +:+ service_name config +:+ ":allocateQuota" ∧
  report_path = "/" +:+ service_name config +:+ ":report" ∧
  factory_uri (check_call_factory_ made) = service_control_uri filter_config ∧
  factory_uri (quota_call_factory_ made) = service_control_uri filter_config ∧
  factory_uri (report_call_factory_ made) = service_control_uri filter_config ∧
  client_service_name made = service_name config ∧
  client_service_config_id made = service_config_id config.
Proof.
  assert (∀ fc this,
    config_ (object (initSettings fc this)) = config_ this) as Hconfig.
  { intros fc this.
    unfold initHttpRequestSetting, has_sc_calling_config. unfold_M.
    by destruct (has (opt_sc_calling_config fc)). }
  simpl. unfold ClientCache_new, ClientCache_body. unfold mbind, M_bind.
  specialize (Hconfig filter_config
                (member_initializers config created_stats uninitialised)).
  destruct (initHttpRequestSetting filter_config _) as [[[] this] evs].
  simpl in *. rewrite Hconfig.
  split; [|split; [|split]]; [| | |done].
  - intros H. apply (inj (String.app _)), (inj (String.app _)) in H. done.
  - intros H. apply (inj (String.app _)), (inj (String.app _)) in H. done.
  - intros H. apply (inj (String.app _)), (inj (String.app _)) in H. done.
Qed.

End MoreRuns.

(** ** The periodic timer *)

Lemma EnvoyPeriodicTimer_fire_new (interval_ms : Z) :
  EnvoyPeriodicTimer_fire (EnvoyPeriodicTimer_new interval_ms) =
  Some (1%nat, EnvoyPeriodicTimer_new interval_ms).
Proof. reflexivity. Qed.

(** X15. The timer is periodic: created with an interval, it is armed for
    that interval, and after any number of firings the callback has run
    once per firing and the timer is armed for the same interval again. *)
Theorem periodic_timer_rearms (interval_ms : Z) (n : nat) :
  timer_ (EnvoyPeriodicTimer_new interval_ms) = Some (Some interval_ms) ∧
  EnvoyPeriodicTimer_fire_times n (EnvoyPeriodicTimer_new interval_ms) =
  Some (n, EnvoyPeriodicTimer_new interval_ms).
Proof.
  split; [done|]. induction n as [|n IH]; [done|].
  cbn [EnvoyPeriodicTimer_fire_times].
  by rewrite EnvoyPeriodicTimer_fire_new, IH.
Qed.

Lemma EnvoyPeriodicTimer_fire_times_spec (n k : nat)
    (t t' : EnvoyPeriodicTimer) :
  EnvoyPeriodicTimer_fire_times n t = Some (k, t') →
  k = n ∧ interval_ms_ t' = interval_ms_ t.
Proof.
  revert t k t'. induction n as [|n IH]; intros t k t' Hrun.
  - by injection Hrun as <- <-.
  - cbn [EnvoyPeriodicTimer_fire_times] in Hrun.
    destruct (EnvoyPeriodicTimer_fire t) as [[k1 t1]|] eqn:Hfire; [|done].
    destruct (EnvoyPeriodicTimer_fire_times n t1) as [[k2 t2]|] eqn:Hrest;
      [|done].
    injection Hrun as <- <-. apply IH in Hrest as [-> ->].
    unfold EnvoyPeriodicTimer_fire, EnvoyPeriodicTimer_call in Hfire.
    destruct (timer_ t) as [[d|]|]; simpl in Hfire; try done.
    by injection Hfire as <- <-.
Qed.

(** X16. [Stop] ends it: a stopped timer never fires again, however long
    it was running before, and stopping it again changes nothing.  [call]
    on a stopped timer has no defined outcome. *)
Theorem periodic_timer_stop (t : EnvoyPeriodicTimer) (n : nat) :
  EnvoyPeriodicTimer_fire (EnvoyPeriodicTimer_Stop t) = None ∧
  EnvoyPeriodicTimer_fire_times (S n) (EnvoyPeriodicTimer_Stop t) = None ∧
  EnvoyPeriodicTimer_Stop (EnvoyPeriodicTimer_Stop t) =
    EnvoyPeriodicTimer_Stop t ∧
  EnvoyPeriodicTimer_call (EnvoyPeriodicTimer_Stop t) = None ∧
  (∀ k t', EnvoyPeriodicTimer_fire_times n t = Some (k, t') →
     k = n ∧ interval_ms_ t' = interval_ms_ t ∧
     EnvoyPeriodicTimer_fire (EnvoyPeriodicTimer_Stop t') = None).
Proof.
  split; [done|]. split; [done|]. split; [done|]. split; [done|].
  intros k t' Hrun.
  destruct (EnvoyPeriodicTimer_fire_times_spec _ _ _ _ Hrun) as [-> ->].
  done.
Qed.

(** * The further properties on the sample service *)

(** X8 at a successful transport whose body does not parse, fail open. *)
Lemma malformed_body_is_denied_witness :
  ok OkStatus = true ∧
  (Sample.ParseFromString CheckCall Sample.accepted "<html>").1 = false ∧
  check_done_calls
    (events
       (Sample.handleCheckResponse
          (result (processScCallTransportStatus (CheckD:=string)
                     (QuotaD:=string) Sample.ParseFromString CheckCall
                     OkStatus Sample.accepted "<html>"
                     (Sample.cache true))).1
          (result (processScCallTransportStatus (CheckD:=string)
                     (QuotaD:=string) Sample.ParseFromString CheckCall
                     OkStatus Sample.accepted "<html>"
                     (Sample.cache true))).2
          (Sample.cache true))) =
    [(MkStatus kInternal "Invalid response",
      MkCheckResponseInfo
        (MkScResponseError "INVALID_ARGUMENT" true ERROR_TYPE_UNSPECIFIED)
        NOT_CHECKED "")].
Proof.
  split; [reflexivity|]. split; [reflexivity|].
  destruct (malformed_body_is_denied (QuotaD:=string)
              Sample.ParseFromString Sample.ConvertCheckResponse
              Sample.default_check_info OkStatus Sample.accepted "<html>"
              (Sample.cache true) (Sample.cache true) eq_refl eq_refl)
    as [Hcalls _].
  exact Hcalls.
Defined.
